(** * Real-time fan-out layer of the task tracker: a shallow embedding

    The development follows the JavaScript sources of the repository:

    - [backend/src/plugins/websocket.js]: the connection registry
      ([activeConnections], a [Map]), the two broadcast helpers, the
      30-second ping timer and the [onClose] hook;
    - [backend/src/controllers/auth-middleware.js]:
      [authenticateWebSocket];
    - [backend/src/routes/websocket/index.js]: the [/updates] route with
      its ['message'] and ['close'] listeners;
    - the task controller: the three [broadcastFiltered] calls;
    - [frontend/src/websocket.js]: the reconnect policy of the client.

    JavaScript objects that are shared by reference (a connection is held
    by the registry, by the listeners of its socket and by the transport)
    live in a heap and are named by a reference.  Effects (writes to a
    socket, changes of the registry, exceptions) are threaded through a
    state-and-exception monad; a [try]/[catch] block is the [try_catch]
    combinator.  Calls that write to a socket leave an event in a trace. *)

From Stdlib Require Import ZArith QArith Qminmax Ascii String DecimalString DecimalZ.
From stdpp Require Import base tactics option list strings gmap.

Set Warnings "-register-all".
Open Scope string_scope.
Open Scope list_scope.

(** ** JSON values

    What [JSON.parse] returns and [JSON.stringify] takes. *)
Module Json.

Inductive JValue : Type :=
| JNull
| JBool (b : bool)
| JNum (x : Q)
| JStr (s : string)
| JArr (items : list JValue)
| JObj (fields : list (string * JValue)).

(** Own property of an object literal, by key. *)
Fixpoint assoc (k : string) (fields : list (string * JValue)) : option JValue :=
  match fields with
  | [] => None
  | (k', v) :: rest => if String.eqb k' k then Some v else assoc k rest
  end.

(** [v.k] on a non-null value: the own property of an object; the
    keys read by the sources ([type], [timestamp]) are not defined on the
    prototypes of strings, numbers, booleans or arrays, so the read is
    [undefined] ([None]) there. *)
Definition prop (k : string) (v : JValue) : option JValue :=
  match v with
  | JObj fields => assoc k fields
  | _ => None
  end.

Definition has_key (k : string) (fields : list (string * JValue)) : bool :=
  bool_decide (is_Some (assoc k fields)).

(** Conversion of a parsed value to a string inside a template literal
    raises a [TypeError] exactly when an object with an own (hence not
    callable) [toString] property is reached: directly, or through the
    [join] of an array. *)
Fixpoint toString_throws (v : JValue) : bool :=
  match v with
  | JObj fields => has_key "toString" fields
  | JArr items =>
      (fix any (l : list JValue) : bool :=
         match l with
         | [] => false
         | x :: l' => toString_throws x || any l'
         end) items
  | _ => false
  end.

End Json.
Export Json.

(** An integer in a template literal: its decimal digits. *)
Definition decimal (n : Z) : string := NilEmpty.string_of_int (Z.to_int n).

(** ** The ECMAScript [Map]: keys in insertion order, no key twice *)
Module JsMap.
Section Ops.
Context {V : Type}.
Definition t := list (string * V).

Definition empty : t := [].

Fixpoint get (k : string) (m : t) : option V :=
  match m with
  | [] => None
  | (k', v) :: m' => if String.eqb k' k then Some v else get k m'
  end.

Definition has (k : string) (m : t) : bool :=
  match get k m with Some _ => true | None => false end.

(** [m.set(k, v)]: an existing key keeps its place, a new one goes last. *)
Fixpoint set (k : string) (v : V) (m : t) : t :=
  match m with
  | [] => [(k, v)]
  | (k', v') :: m' =>
      if String.eqb k' k then (k, v) :: m' else (k', v') :: set k v m'
  end.

(** [m.delete(k)]: the entry of [k] goes; the result of the call is
    [has k m]. *)
Fixpoint delete (k : string) (m : t) : t :=
  match m with
  | [] => []
  | (k', v') :: m' =>
      if String.eqb k' k then m' else (k', v') :: delete k m'
  end.

Definition size (m : t) : nat := length m.
Definition keys (m : t) : list string := m.*1.
Definition values (m : t) : list V := m.*2.

(** A [Map] never holds a key twice. *)
Definition wf (m : t) : Prop := NoDup (keys m).
End Ops.
Arguments t : clear implicits.
End JsMap.

(** ** Sockets, connections and the state of the server *)

Inductive ReadyState : Type := CONNECTING | OPEN | CLOSING | CLOSED.

(** The numeric [readyState] the sources compare with [1] and [2]. *)
Definition readyState_code (s : ReadyState) : nat :=
  match s with CONNECTING => 0 | OPEN => 1 | CLOSING => 2 | CLOSED => 3 end.

#[global] Instance ReadyState_eq_dec : EqDecision ReadyState.
Proof. solve_decision. Defined.

Definition Ref := nat.

(** The socket of a connection.  [send_raises] and [close_raises] say
    whether a call of [socket.send] or [socket.close] on it raises; they are
    there for the properties that speak of a call that raises.  The two
    listener lists hold the closures the route registers, in the order of
    registration; what is kept of a closure is the variable it captured. *)
Record Socket : Type := mkSocket {
  readyState : ReadyState;
  send_raises : bool;
  close_raises : bool;
  on_message : list string;   (* [userId] of each 'message' listener *)
  on_close : list string      (* [connectionId] of each 'close' listener *)
}.

Record User : Type := mkUser {
  user_id : string;
  user_email : string;
  user_name : string
}.

Record Connection : Type := mkConnection {
  user : option User;                         (* [connection.user] *)
  subscriptions : option (gmap string bool);  (* [connection.subscriptions] *)
  socket : Socket                             (* [connection.socket] *)
}.

(** What goes on the wire: a string passed as it is, or the
    [JSON.stringify] of a value. *)
Inductive Payload : Type :=
| Text (s : string)
| Json (v : JValue).

Inductive Event : Type :=
| EvSend (r : Ref) (p : Payload)                (* [send] wrote the frame *)
| EvSendFailed (r : Ref) (p : Payload)          (* [send] raised *)
| EvPing (r : Ref)                              (* [ping] *)
| EvClose (r : Ref) (code : Z) (reason : string)        (* [close] done *)
| EvCloseFailed (r : Ref) (code : Z) (reason : string). (* [close] raised *)

Inductive Exn : Type :=
| TypeError
| SyntaxError
| SendError (r : Ref)
| CloseError (r : Ref)
| JwtError
| StoreError.

Record World : Type := mkWorld {
  heap : gmap Ref Connection;
  activeConnections : JsMap.t Ref;
  pingInterval : bool;          (* the interval timer is armed *)
  trace : list Event
}.

#[global] Instance Socket_inhabited : Inhabited Socket :=
  populate (mkSocket CLOSED false false [] []).
#[global] Instance Connection_inhabited : Inhabited Connection :=
  populate (mkConnection None None inhabitant).

(** The object a reference names. *)
Definition deref (w : World) (r : Ref) : Connection := heap w !!! r.

Definition set_heap (h : gmap Ref Connection) (w : World) : World :=
  mkWorld h (activeConnections w) (pingInterval w) (trace w).
Definition set_activeConnections (m : JsMap.t Ref) (w : World) : World :=
  mkWorld (heap w) m (pingInterval w) (trace w).
Definition set_pingInterval (b : bool) (w : World) : World :=
  mkWorld (heap w) (activeConnections w) b (trace w).
Definition emit (e : Event) (w : World) : World :=
  mkWorld (heap w) (activeConnections w) (pingInterval w) (trace w ++ [e]).

Definition add_trace (events : list Event) (w : World) : World :=
  mkWorld (heap w) (activeConnections w) (pingInterval w) (trace w ++ events).

Definition set_subscriptions (s : option (gmap string bool)) (c : Connection) :=
  mkConnection (user c) s (socket c).
Definition set_user (u : option User) (c : Connection) :=
  mkConnection u (subscriptions c) (socket c).
Definition set_socket (s : Socket) (c : Connection) :=
  mkConnection (user c) (subscriptions c) s.
Definition update (r : Ref) (f : Connection -> Connection) (w : World) : World :=
  set_heap (<[r := f (deref w r)]> (heap w)) w.

(** ** The monad of handlers: state, trace and exceptions *)

Inductive Outcome (A : Type) : Type :=
| Ret (a : A)
| Throw (e : Exn).
Arguments Ret {A} a.
Arguments Throw {A} e.

Definition M (A : Type) : Type := World -> Outcome A * World.

Definition ret {A} (a : A) : M A := fun w => (Ret a, w).
Definition throw {A} (e : Exn) : M A := fun w => (Throw e, w).
Definition bind {A B} (m : M A) (k : A -> M B) : M B :=
  fun w => match m w with
           | (Ret a, w') => k a w'
           | (Throw e, w') => (Throw e, w')
           end.
Definition try_catch {A} (body : M A) (handler : Exn -> M A) : M A :=
  fun w => match body w with
           | (Ret a, w') => (Ret a, w')
           | (Throw e, w') => handler e w'
           end.
Definition gets {A} (f : World -> A) : M A := fun w => (Ret (f w), w).
Definition modify (f : World -> World) : M unit := fun w => (Ret tt, f w).

Notation "'let*' x ':=' m 'in' k" := (bind m (fun x => k))
  (at level 10, x name, m at level 100, k at level 200).
Notation "m ';;' k" := (bind m (fun _ => k))
  (at level 100, k at level 200, right associativity).

(** Methods of a socket. *)
Definition socket_send (r : Ref) (p : Payload) : M unit :=
  let* c := gets (fun w => deref w r) in
  if send_raises (socket c)
  then modify (emit (EvSendFailed r p)) ;; throw (SendError r)
  else modify (emit (EvSend r p)).

(** [ping()], called on OPEN sockets only; it does not raise there. *)
Definition socket_ping (r : Ref) : M unit := modify (emit (EvPing r)).

Definition socket_close (r : Ref) (code : Z) (reason : string) : M unit :=
  let* c := gets (fun w => deref w r) in
  if close_raises (socket c)
  then modify (emit (EvCloseFailed r code reason)) ;; throw (CloseError r)
  else modify (emit (EvClose r code reason)).

(** [map.forEach(callback)] for a callback that removes at most the entry
    it is called on (all callbacks of the plugin are so): the entries
    present at the start are visited in insertion order; an exception
    leaves the loop. *)
Fixpoint forEach_entries (callback : Ref -> string -> M unit)
    (entries : list (string * Ref)) : M unit :=
  match entries with
  | [] => ret tt
  | (id, r) :: rest => callback r id ;; forEach_entries callback rest
  end.

Definition forEach (callback : Ref -> string -> M unit) : M unit :=
  let* entries := gets activeConnections in
  forEach_entries callback entries.

(** The same loop for a callback that updates a local variable of the
    enclosing function ([sentCount]). *)
Fixpoint forEach_entries_acc {A} (callback : A -> Ref -> string -> M A)
    (acc : A) (entries : list (string * Ref)) : M A :=
  match entries with
  | [] => ret acc
  | (id, r) :: rest =>
      let* acc' := callback acc r id in forEach_entries_acc callback acc' rest
  end.

Definition forEach_acc {A} (callback : A -> Ref -> string -> M A) (acc : A) : M A :=
  let* entries := gets activeConnections in
  forEach_entries_acc callback acc entries.

(** ** [plugins/websocket.js]: registry, broadcast, ping timer, shutdown *)
Module WebsocketPlugin.

Definition addConnection (id : string) (connection : Ref) : M unit :=
  modify (fun w =>
    set_activeConnections (JsMap.set id connection (activeConnections w)) w).

Definition removeConnection (id : string) : M bool :=
  let* removed := gets (fun w => JsMap.has id (activeConnections w)) in
  modify (fun w =>
    set_activeConnections (JsMap.delete id (activeConnections w)) w) ;;
  ret removed.

Definition getConnection (id : string) : M (option Ref) :=
  gets (fun w => JsMap.get id (activeConnections w)).

Definition getAllConnections : M (list Ref) :=
  gets (fun w => JsMap.values (activeConnections w)).

Definition getConnectionsCount : M nat :=
  gets (fun w => JsMap.size (activeConnections w)).

(** The [message] argument of the broadcast helpers: a string, or a
    value that is serialized once, before the loop. *)
Inductive Message : Type :=
| MsgString (s : string)
| MsgObject (v : JValue).

Definition serialize (message : Message) : Payload :=
  match message with
  | MsgString s => Text s
  | MsgObject v => Json v
  end.

(** [connection.socket.readyState === 1] *)
Definition is_open (connection : Connection) : bool :=
  Nat.eqb (readyState_code (readyState (socket connection))) 1.

(** [excludeId && id === excludeId] *)
Definition excluded (excludeId : option string) (id : string) : bool :=
  match excludeId with
  | Some x => negb (String.eqb x "") && String.eqb id x
  | None => false
  end.

Definition broadcast (message : Message) (excludeId : option string) : M nat :=
  let serializedMessage := serialize message in
  forEach_acc (fun sentCount r id =>
    if excluded excludeId id then ret sentCount
    else
      let* connection := gets (fun w => deref w r) in
      if is_open connection
      then socket_send r serializedMessage ;; ret (S sentCount)
      else ret sentCount) 0.

Definition broadcastFiltered (message : Message)
    (filterFn : Connection -> string -> bool) : M nat :=
  let serializedMessage := serialize message in
  forEach_acc (fun sentCount r id =>
    let* connection := gets (fun w => deref w r) in
    if filterFn connection id && is_open connection
    then socket_send r serializedMessage ;; ret (S sentCount)
    else ret sentCount) 0.

(** The body of the [setInterval] callback: one tick of the timer. *)
Definition pingTick : M unit :=
  forEach (fun r id =>
    let* connection := gets (fun w => deref w r) in
    if Nat.eqb (readyState_code (readyState (socket connection))) 1
    then socket_ping r
    else if Nat.leb 2 (readyState_code (readyState (socket connection)))
    then removeConnection id ;; ret tt
    else ret tt).

(** The [onClose] hook of the server. *)
Definition onClose : M unit :=
  modify (set_pingInterval false) ;;
  forEach (fun r _ =>
    try_catch (socket_close r 1000 "Server shutting down")
              (fun _ => ret tt)) ;;
  modify (set_activeConnections JsMap.empty).

End WebsocketPlugin.

(** ** [controllers/auth-middleware.js]: admission of a WebSocket *)
Module AuthMiddleware.

(** The claims of a verified token; [jwt_id] is [decoded.id] when it
    is a string. *)
Record JwtPayload : Type := mkJwtPayload { jwt_id : option string }.

Record Session : Type := mkSession {
  session_token : string;
  expiresAt : Z;
  session_user : User
}.

(** The collaborators: [jwt.verify] ([None] when it raises) and the
    session table ([store_fails] when the query raises). *)
Record AuthEnv : Type := mkAuthEnv {
  jwt_verify : string -> option JwtPayload;
  sessions : list Session;
  store_fails : bool
}.

Record Query : Type := mkQuery { token : option string }.
Record Request : Type := mkRequest { query : option Query }.

(** [prisma.session.findFirst({ where: { token, expiresAt: { gt: now } } })] *)
Definition findFirst (env : AuthEnv) (tok : string) (now : Z) : M (option Session) :=
  if store_fails env then throw StoreError
  else ret (List.find
              (fun s => String.eqb (session_token s) tok && Z.ltb now (expiresAt s))
              (sessions env)).

Definition authenticateWebSocket (env : AuthEnv) (now : Z)
    (connection : Ref) (request : Request) : M bool :=
  try_catch
    (let* tok := match query request with
                 | Some q => ret (token q)
                 | None => throw TypeError
                 end in
     match tok with
     | None =>
         socket_close connection 1008 "Authentication required" ;; ret false
     | Some tok =>
         if String.eqb tok ""
         then socket_close connection 1008 "Authentication required" ;; ret false
         else
           try_catch
             (let* decoded := match jwt_verify env tok with
                              | Some d => ret d
                              | None => throw JwtError
                              end in
              let* session := findFirst env tok now in
              match session with
              | None =>
                  socket_close connection 1008 "Invalid or expired session" ;;
                  ret false
              | Some session =>
                  modify (update connection (set_user (Some (session_user session)))) ;;
                  if bool_decide (jwt_id decoded =
                                  Some (user_id (session_user session)))
                  then ret true
                  else
                    socket_close connection 1008 "Invalid authentication token" ;;
                    ret false
              end)
             (fun err =>
                socket_close connection 1008 "Invalid authentication token" ;;
                ret false)
     end)
    (fun error =>
       socket_close connection 1011 "Internal server error" ;; ret false).

End AuthMiddleware.

(** ** [routes/websocket/index.js]: the [/updates] route *)
Module WebsocketRoutes.
Import WebsocketPlugin AuthMiddleware.

(** The readings of the clock taken while a handler runs: [Date.now()]
    and [new Date().toISOString()]. *)
Record Clock : Type := mkClock { now_ms : Z; now_iso : string }.

(** An integer in a template literal: its decimal digits. *)
Definition decimal (n : Z) : string := NilEmpty.string_of_int (Z.to_int n).

(** [`user:${userId}:${Date.now()}`] *)
Definition connectionId (userId : string) (now : Z) : string :=
  "user:" +:+ userId +:+ ":" +:+ decimal now.

(** The frame received: text [JSON.parse] rejects, or the parsed value. *)
Inductive Inbound : Type :=
| Unparseable
| Parsed (data : JValue).

Definition JSON_parse (message : Inbound) : M JValue :=
  match message with
  | Unparseable => throw SyntaxError
  | Parsed data => ret data
  end.

(** [data.type]: a [TypeError] on [null], otherwise the property or
    [undefined]. *)
Definition get_type (data : JValue) : M (option JValue) :=
  match data with
  | JNull => throw TypeError
  | _ => ret (prop "type" data)
  end.

(** The log line [`Received WebSocket message from ${userId}: ${data.type}`]:
    nothing is kept of it but the exception the template can raise. *)
Definition log_received (type : option JValue) : M unit :=
  match type with
  | Some v => if toString_throws v then throw TypeError else ret tt
  | None => ret tt
  end.

Inductive Case : Type :=
| CasePING
| CaseSUBSCRIBE_TASKS
| CaseUNSUBSCRIBE_TASKS
| CaseDefault.

(** [switch (data.type)]: strict equality with the three labels. *)
Definition switch (type : option JValue) : Case :=
  match type with
  | Some (JStr t) =>
      if String.eqb t "PING" then CasePING
      else if String.eqb t "SUBSCRIBE_TASKS" then CaseSUBSCRIBE_TASKS
      else if String.eqb t "UNSUBSCRIBE_TASKS" then CaseUNSUBSCRIBE_TASKS
      else CaseDefault
  | _ => CaseDefault
  end.

Definition CONNECTED (userId iso : string) : Payload :=
  Json (JObj [("type", JStr "CONNECTED"); ("userId", JStr userId);
              ("timestamp", JStr iso)]).
Definition PONG (iso : string) : Payload :=
  Json (JObj [("type", JStr "PONG"); ("timestamp", JStr iso)]).
Definition SUBSCRIBED (iso : string) : Payload :=
  Json (JObj [("type", JStr "SUBSCRIBED"); ("channel", JStr "tasks");
              ("timestamp", JStr iso)]).
Definition UNSUBSCRIBED (iso : string) : Payload :=
  Json (JObj [("type", JStr "UNSUBSCRIBED"); ("channel", JStr "tasks");
              ("timestamp", JStr iso)]).
Definition ERROR (error iso : string) : Payload :=
  Json (JObj [("type", JStr "ERROR"); ("error", JStr error);
              ("timestamp", JStr iso)]).

(** [connection.subscriptions = connection.subscriptions || {};
     connection.subscriptions.tasks = true] *)
Definition subscribe_tasks (c : Connection) : Connection :=
  set_subscriptions (Some (<["tasks" := true]> (default ∅ (subscriptions c)))) c.

(** [if (connection.subscriptions) connection.subscriptions.tasks = false] *)
Definition unsubscribe_tasks (c : Connection) : Connection :=
  match subscriptions c with
  | Some s => set_subscriptions (Some (<["tasks" := false]> s)) c
  | None => c
  end.

(** The ['message'] listener. *)
Definition onMessage (clock : Clock) (connection : Ref) (userId : string)
    (message : Inbound) : M unit :=
  try_catch
    (let* data := JSON_parse message in
     let* type := get_type data in
     log_received type ;;
     match switch type with
     | CasePING =>
         socket_send connection (PONG (now_iso clock))
     | CaseSUBSCRIBE_TASKS =>
         modify (update connection subscribe_tasks) ;;
         socket_send connection (SUBSCRIBED (now_iso clock))
     | CaseUNSUBSCRIBE_TASKS =>
         (let* c := gets (fun w => deref w connection) in
          if bool_decide (is_Some (subscriptions c))
          then modify (update connection unsubscribe_tasks)
          else ret tt) ;;
         socket_send connection (UNSUBSCRIBED (now_iso clock))
     | CaseDefault =>
         socket_send connection (ERROR "Unknown message type" (now_iso clock))
     end)
    (fun error =>
       socket_send connection (ERROR "Invalid message format" (now_iso clock))).

(** The ['close'] listener. *)
Definition onSocketClose (connectionId : string) : M unit :=
  removeConnection connectionId ;; ret tt.

(** [connection.socket.on(event, listener)] *)
Definition socket_on_message (connection : Ref) (userId : string) : M unit :=
  modify (update connection (fun c =>
    let s := socket c in
    set_socket (mkSocket (readyState s) (send_raises s) (close_raises s)
                         (on_message s ++ [userId]) (on_close s)) c)).
Definition socket_on_close (connection : Ref) (connectionId : string) : M unit :=
  modify (update connection (fun c =>
    let s := socket c in
    set_socket (mkSocket (readyState s) (send_raises s) (close_raises s)
                         (on_message s) (on_close s ++ [connectionId])) c)).

(** The handler of [GET /updates]; [authTime] is the clock reading of
    the session query. *)
Definition updates (env : AuthEnv) (authTime : Z) (clock : Clock)
    (connection : Ref) (request : Request) : M unit :=
  let* isAuthenticated := authenticateWebSocket env authTime connection request in
  if negb isAuthenticated then ret tt
  else
    let* c := gets (fun w => deref w connection) in
    let* userId := match user c with
                   | Some u => ret (user_id u)
                   | None => throw TypeError
                   end in
    let connectionId := connectionId userId (now_ms clock) in
    addConnection connectionId connection ;;
    socket_send connection (CONNECTED userId (now_iso clock)) ;;
    socket_on_message connection userId ;;
    socket_on_close connection connectionId.

End WebsocketRoutes.

(** ** The transport: events the socket library raises *)
Module Transport.
Import WebsocketRoutes.

Fixpoint run_listeners {A} (listener : A -> M unit) (l : list A) : M unit :=
  match l with
  | [] => ret tt
  | a :: l' => listener a ;; run_listeners listener l'
  end.

Definition set_readyState (st : ReadyState) (c : Connection) : Connection :=
  let s := socket c in
  set_socket (mkSocket st (send_raises s) (close_raises s)
                       (on_message s) (on_close s)) c.

(** The socket moves to [st] and no event reaches the application. *)
Definition state_changed (connection : Ref) (st : ReadyState) : M unit :=
  modify (update connection (set_readyState st)).

(** The socket is closed: its state is [CLOSED] and ['close'] is
    emitted to the listeners. *)
Definition closed (connection : Ref) : M unit :=
  modify (update connection (set_readyState CLOSED)) ;;
  let* c := gets (fun w => deref w connection) in
  run_listeners onSocketClose (on_close (socket c)).

(** A frame arrives: ['message'] is emitted.  The listener is an
    [async] function, so what it raises does not reach the emitter. *)
Definition message (clock : Clock) (connection : Ref) (frame : Inbound) : M unit :=
  let* c := gets (fun w => deref w connection) in
  run_listeners
    (fun userId => try_catch (onMessage clock connection userId frame)
                             (fun _ => ret tt))
    (on_message (socket c)).

End Transport.

(** ** The task controller: the notification sent after a write *)
Module TaskController.
Import WebsocketPlugin.

(** [(connection) => connection.user && connection.user.id === userId] *)
Definition ownedBy (userId : string) (connection : Connection) (_ : string) : bool :=
  match user connection with
  | Some u => String.eqb (user_id u) userId
  | None => false
  end.

Definition TASK_CREATED (task : JValue) : Message :=
  MsgObject (JObj [("type", JStr "TASK_CREATED"); ("task", task)]).
Definition TASK_UPDATED (task : JValue) : Message :=
  MsgObject (JObj [("type", JStr "TASK_UPDATED"); ("task", task)]).
Definition TASK_DELETED (id : string) : Message :=
  MsgObject (JObj [("type", JStr "TASK_DELETED"); ("taskId", JStr id)]).

(** The [broadcastFiltered] call of [createTask], [updateTask] and
    [deleteTask]. *)
Definition createTask_notify (userId : string) (task : JValue) : M nat :=
  broadcastFiltered (TASK_CREATED task) (ownedBy userId).
Definition updateTask_notify (userId : string) (task : JValue) : M nat :=
  broadcastFiltered (TASK_UPDATED task) (ownedBy userId).
Definition deleteTask_notify (userId : string) (id : string) : M nat :=
  broadcastFiltered (TASK_DELETED id) (ownedBy userId).

End TaskController.

(** ** [frontend/src/websocket.js]: the reconnect policy of the client

    Delays are exact rationals: for the attempt counts the client reaches,
    [1000 * 1.5 ^ n] is a multiple of [2 ^ -n] below [2 ^ 53] and the
    binary64 arithmetic of the source is exact on it. *)
Module WebSocketClient.

Inductive ClientEvent : Type :=
| Connected (timestamp : string)                  (* 'connected' *)
| AuthError (code : Z) (reason : string)          (* 'authError' *)
| Disconnected (code : Z) (reason : string)       (* 'disconnected' *)
| Reconnecting (attempt : nat) (delay : Q)        (* 'reconnecting' *)
| MaxReconnectAttemptsReached (attempts : nat)    (* 'maxReconnectAttemptsReached' *)
| SetTimeout (delay : Q).              (* [setTimeout(() => connect(), delay)] *)

Record State : Type := mkState {
  isConnected : bool;
  isConnecting : bool;
  connectionError : option string;
  reconnectAttempts : nat;
  reconnectTimeoutId : option Q;   (* the delay of the timer last set *)
  log : list ClientEvent           (* events triggered and timers set *)
}.

Definition maxReconnectAttempts : nat := 10.

Definition setIsConnected (b : bool) (st : State) : State :=
  mkState b (isConnecting st) (connectionError st) (reconnectAttempts st)
          (reconnectTimeoutId st) (log st).
Definition setIsConnecting (b : bool) (st : State) : State :=
  mkState (isConnected st) b (connectionError st) (reconnectAttempts st)
          (reconnectTimeoutId st) (log st).
Definition setConnectionError (e : option string) (st : State) : State :=
  mkState (isConnected st) (isConnecting st) e (reconnectAttempts st)
          (reconnectTimeoutId st) (log st).
Definition setReconnectAttempts (n : nat) (st : State) : State :=
  mkState (isConnected st) (isConnecting st) (connectionError st) n
          (reconnectTimeoutId st) (log st).
Definition triggerEvent (e : ClientEvent) (st : State) : State :=
  mkState (isConnected st) (isConnecting st) (connectionError st)
          (reconnectAttempts st) (reconnectTimeoutId st) (log st ++ [e]).
Definition setTimeout (delay : Q) (st : State) : State :=
  mkState (isConnected st) (isConnecting st) (connectionError st)
          (reconnectAttempts st) (Some delay) (log st ++ [SetTimeout delay]).

(** [Math.min(1000 * Math.pow(1.5, reconnectAttempts), 30000)] *)
Definition getReconnectDelay (st : State) : Q :=
  Qmin (1000 * (3 # 2) ^ Z.of_nat (reconnectAttempts st)) 30000.

Definition scheduleReconnect (st : State) : State :=
  if Nat.leb maxReconnectAttempts (reconnectAttempts st)
  then
    triggerEvent (MaxReconnectAttemptsReached (reconnectAttempts st))
      (setConnectionError (Some "Maximum reconnection attempts reached") st)
  else
    let st := setReconnectAttempts (S (reconnectAttempts st)) st in
    let delay := getReconnectDelay st in
    let st := triggerEvent (Reconnecting (reconnectAttempts st) delay) st in
    setTimeout delay st.

Definition handleOpen (iso : string) (st : State) : State :=
  let st := setIsConnected true st in
  let st := setIsConnecting false st in
  let st := setConnectionError None st in
  let st := setReconnectAttempts 0 st in
  triggerEvent (Connected iso) st.

Definition handleClose (code : Z) (reason : string) (st : State) : State :=
  let st := setIsConnected false st in
  let st := setIsConnecting false st in
  let st :=
    if Z.eqb code 1008
    then
      triggerEvent (AuthError code reason)
        (setConnectionError (Some "Authentication failed. Please log in again.") st)
    else
      scheduleReconnect
        (setConnectionError
           (Some ("Connection closed (" +:+ decimal code
                  +:+ "): " +:+ reason)) st) in
  triggerEvent (Disconnected code reason) st.

(** A run of close events, oldest first. *)
Definition closes (events : list (Z * string)) (st : State) : State :=
  fold_left (fun st e => handleClose e.1 e.2 st) events st.

(** The delays of the timers set so far. *)
Definition timers (st : State) : list Q :=
  omap (fun e => match e with SetTimeout d => Some d | _ => None end) (log st).

End WebSocketClient.

(** ** The vocabulary of the specification

    Notions the properties below are stated with; none of them is used by
    the embedding of the sources above. *)
Module Spec.
Import WebsocketPlugin.

Definition entry : Type := string * Ref.

(** The policy for task events: the connection is owned by the user
    of the event and its socket is OPEN. *)
Definition task_recipient (userId : string) (c : Connection) : bool :=
  bool_decide (user_id <$> user c = Some userId ∧ readyState (socket c) = OPEN).

(** The entries a dispatch with [filterFn] is to write to. *)
Definition targets (filterFn : Connection -> string -> bool) (w : World) : list entry :=
  List.filter (fun e => filterFn (deref w e.2) e.1 &&
                        bool_decide (readyState (socket (deref w e.2)) = OPEN))
              (activeConnections w).

Definition raises (w : World) (e : entry) : bool :=
  send_raises (socket (deref w e.2)).

(** The entries before the first one whose [send] raises, and that one. *)
Fixpoint until_failure (w : World) (l : list entry) : list entry * option entry :=
  match l with
  | [] => ([], None)
  | e :: l' =>
      if raises w e then ([], Some e)
      else let '(written, failed) := until_failure w l' in (e :: written, failed)
  end.

Definition writes (p : Payload) (l : list entry) : list Event :=
  map (fun e => EvSend e.2 p) l.

(** A dispatch over [l]: the count and the frames written when no
    [send] raises; the frames written before it and the exception when one
    does. *)
Definition dispatch (p : Payload) (l : list entry) (w : World) : Outcome nat * World :=
  match until_failure w l with
  | (written, None) =>
      (Ret (length written), add_trace (writes p written) w)
  | (written, Some e) =>
      (Throw (SendError e.2),
       add_trace (writes p written ++ [EvSendFailed e.2 p]) w)
  end.

(** A write to [r] was tried, whatever became of it. *)
Definition attempted (r : Ref) (p : Payload) (events : list Event) : Prop :=
  EvSend r p ∈ events ∨ EvSendFailed r p ∈ events.

(** What the shutdown leaves in the trace for an entry. *)
Definition close_attempt (w : World) (e : entry) : Event :=
  if close_raises (socket (deref w e.2))
  then EvCloseFailed e.2 1000 "Server shutting down"
  else EvClose e.2 1000 "Server shutting down".

Definition state_is (st : ReadyState) (w : World) (e : entry) : bool :=
  bool_decide (readyState (socket (deref w e.2)) = st).

(** CLOSING or CLOSED. *)
Definition gone (w : World) (e : entry) : bool :=
  state_is CLOSING w e || state_is CLOSED w e.

(** The tasks flag of a connection; a missing entry counts as false. *)
Definition tasks_flag (c : Connection) : bool :=
  match subscriptions c with
  | Some s => default false (s !! "tasks")
  | None => false
  end.

(** The events of [w'] that [w] did not have yet. *)
Definition new_events (w w' : World) : list Event :=
  drop (length (trace w)) (trace w').

(** The payload of a [send], raised or not. *)
Definition frame_of (e : Event) : option Payload :=
  match e with
  | EvSend _ p | EvSendFailed _ p => Some p
  | _ => None
  end.

(** A frame that is an object with the given [type] and [timestamp]. *)
Definition stamped (type iso : string) (p : Payload) : Prop :=
  ∃ fields, p = Json (JObj fields) ∧
            assoc "type" fields = Some (JStr type) ∧
            assoc "timestamp" fields = Some (JStr iso).

Import AuthMiddleware.

(** The ways a credential fails, each with the reason the handler
    gives when it closes the socket. *)
Inductive auth_failure (env : AuthEnv) (now : Z) : Request -> string -> Prop :=
| missing_token q :
    token q = None ∨ token q = Some "" ->
    auth_failure env now (mkRequest (Some q)) "Authentication required"
| verification_failed q tok :
    token q = Some tok -> tok ≠ "" ->
    jwt_verify env tok = None ->
    auth_failure env now (mkRequest (Some q)) "Invalid authentication token"
| no_live_session q tok decoded :
    token q = Some tok -> tok ≠ "" ->
    jwt_verify env tok = Some decoded ->
    store_fails env = false ->
    (∀ s, s ∈ sessions env -> session_token s = tok -> (expiresAt s <= now)%Z) ->
    auth_failure env now (mkRequest (Some q)) "Invalid or expired session"
| identity_mismatch q tok decoded s :
    token q = Some tok -> tok ≠ "" ->
    jwt_verify env tok = Some decoded ->
    store_fails env = false ->
    List.find (fun s => String.eqb (session_token s) tok && Z.ltb now (expiresAt s))
              (sessions env) = Some s ->
    jwt_id decoded ≠ Some (user_id (session_user s)) ->
    auth_failure env now (mkRequest (Some q)) "Invalid authentication token".


(** The credential of [request] holds: the token verifies, a session
    with this token that has not expired is found, and it belongs to the
    user the token names. *)
Definition valid_credential (env : AuthEnv) (now : Z) (request : Request)
    (s : Session) : Prop :=
  ∃ q tok decoded,
    request = mkRequest (Some q) ∧ token q = Some tok ∧ tok ≠ "" ∧
    jwt_verify env tok = Some decoded ∧
    store_fails env = false ∧
    List.find (fun s => String.eqb (session_token s) tok && Z.ltb now (expiresAt s))
              (sessions env) = Some s ∧
    jwt_id decoded = Some (user_id (session_user s)).

End Spec.

(** ** Sample states *)
Module Samples.
Import WebsocketPlugin AuthMiddleware WebsocketRoutes.

Definition open_socket : Socket := mkSocket OPEN false false [] [].
Definition faulty_socket : Socket := mkSocket OPEN true true [] [].
Definition closed_socket : Socket := mkSocket CLOSED false false [] [].

Definition alice : User := mkUser "A" "alice@example.org" "Alice".
Definition bob : User := mkUser "B" "bob@example.org" "Bob".

(** Three connections of A and two of B, all open (P3 of the spec). *)
Definition three_and_two : World :=
  mkWorld
    (list_to_map
       [(1, mkConnection (Some alice) None open_socket);
        (2, mkConnection (Some bob) None open_socket);
        (3, mkConnection (Some alice) (Some {["tasks" := false]}) open_socket);
        (4, mkConnection (Some bob) (Some {["tasks" := true]}) open_socket);
        (5, mkConnection (Some alice) (Some {["tasks" := true]}) open_socket)])
    [("user:A:1", 1); ("user:B:2", 2); ("user:A:3", 3); ("user:B:4", 4);
     ("user:A:5", 5)]
    true [].

(** Two connections of A; writing to the first one raises. *)
Definition first_send_raises : World :=
  mkWorld
    (list_to_map
       [(1, mkConnection (Some alice) None faulty_socket);
        (2, mkConnection (Some alice) None open_socket)])
    [("user:A:1", 1); ("user:A:2", 2)]
    true [].

(** An open, a closed and a closing connection. *)
Definition mixed_states : World :=
  mkWorld
    (list_to_map
       [(1, mkConnection (Some alice) None open_socket);
        (2, mkConnection (Some bob) None closed_socket);
        (3, mkConnection (Some alice) None
              (mkSocket CLOSING false true [] []))])
    [("user:A:1", 1); ("user:B:2", 2); ("user:A:3", 3)]
    true [].

(** Two sockets just accepted, nothing registered yet. *)
Definition two_arrivals : World :=
  mkWorld
    (list_to_map
       [(1, mkConnection None None open_socket);
        (2, mkConnection None None open_socket)])
    [] true [].

(** Token "t-alice" verifies and has a session until time 100;
    "t-forged" does not verify; "t-bob" verifies as B but its session
    belongs to A. *)
Definition env : AuthEnv :=
  mkAuthEnv
    (fun tok =>
       if String.eqb tok "t-alice" then Some (mkJwtPayload (Some "A"))
       else if String.eqb tok "t-bob" then Some (mkJwtPayload (Some "B"))
       else None)
    [mkSession "t-alice" 100 alice; mkSession "t-bob" 100 alice]
    false.

Definition with_token (tok : string) : Request :=
  mkRequest (Some (mkQuery (Some tok))).
Definition without_token : Request := mkRequest (Some (mkQuery None)).

Definition clock : Clock := mkClock 1700000000000 "2023-11-14T22:13:20.000Z".

End Samples.

(** * Properties *)

(** ** The [Map] *)
Section JsMapFacts.
Context {V : Type}.
Implicit Types (m : JsMap.t V) (k : string) (v : V).

Lemma JsMap_has_keys k m : JsMap.has k m = true ↔ k ∈ JsMap.keys m.
Proof.
  unfold JsMap.has, JsMap.keys. induction m as [|[k' v'] m IH]; csimpl.
  - split; [discriminate | intros H; inversion H].
  - destruct (String.eqb_spec k' k) as [->|Hne].
    + split; [intros _; left | done].
    + rewrite IH. split; [by right |]. intros H.
      apply elem_of_cons in H as [->|H]; [congruence | done].
Qed.

Lemma JsMap_has_false_keys k m : JsMap.has k m = false ↔ k ∉ JsMap.keys m.
Proof.
  rewrite <- JsMap_has_keys. destruct (JsMap.has k m); split; congruence.
Qed.

Lemma JsMap_delete_absent k m : JsMap.has k m = false → JsMap.delete k m = m.
Proof.
  unfold JsMap.has. induction m as [|[k' v'] m IH]; csimpl; [done|].
  destruct (String.eqb k' k); [discriminate|]. intros H. by rewrite IH.
Qed.

Lemma JsMap_delete_present_size k m :
  JsMap.has k m = true → S (JsMap.size (JsMap.delete k m)) = JsMap.size m.
Proof.
  unfold JsMap.has, JsMap.size. induction m as [|[k' v'] m IH]; csimpl; [done|].
  destruct (String.eqb k' k); [done|]. intros H. csimpl. by rewrite IH.
Qed.

Lemma JsMap_delete_middle k v (kept rest : JsMap.t V) :
  k ∉ JsMap.keys kept →
  JsMap.delete k (kept ++ (k, v) :: rest) = kept ++ rest.
Proof.
  unfold JsMap.keys. induction kept as [|[k' v'] kept IH]; csimpl; intros Hk.
  - by rewrite String.eqb_refl.
  - apply not_elem_of_cons in Hk as [Hne Hk].
    destruct (String.eqb_spec k' k); [congruence|]. by rewrite IH.
Qed.

Lemma JsMap_keys_delete k m : JsMap.keys (JsMap.delete k m) ⊆ JsMap.keys m.
Proof.
  unfold JsMap.keys. induction m as [|[k' v'] m IH]; csimpl; [done|].
  destruct (String.eqb k' k); csimpl.
  - intros x Hx. by right.
  - intros x Hx. apply elem_of_cons in Hx as [->|Hx]; [left | right; by apply IH].
Qed.

Lemma JsMap_wf_delete k m : JsMap.wf m → JsMap.wf (JsMap.delete k m).
Proof.
  unfold JsMap.wf, JsMap.keys. induction m as [|[k' v'] m IH]; csimpl; [done|].
  intros Hnd. apply NoDup_cons in Hnd as [Hk' Hnd].
  destruct (String.eqb k' k); csimpl; [done|].
  apply NoDup_cons. split; [|by apply IH].
  intros Hin. apply Hk'. by apply (JsMap_keys_delete k m).
Qed.

Lemma JsMap_has_delete k m : JsMap.wf m → JsMap.has k (JsMap.delete k m) = false.
Proof.
  intros Hwf. apply JsMap_has_false_keys. revert Hwf.
  unfold JsMap.wf, JsMap.keys. induction m as [|[k' v'] m IH]; csimpl.
  - intros _ H. inversion H.
  - intros Hnd. apply NoDup_cons in Hnd as [Hk' Hnd].
    destruct (String.eqb_spec k' k) as [->|Hne]; csimpl; [done|].
    apply not_elem_of_cons. split; [congruence | by apply IH].
Qed.

Lemma JsMap_keys_set k v m :
  JsMap.keys (JsMap.set k v m) =
  if JsMap.has k m then JsMap.keys m else JsMap.keys m ++ [k].
Proof.
  unfold JsMap.keys, JsMap.has. induction m as [|[k' v'] m IH]; csimpl; [done|].
  destruct (String.eqb_spec k' k) as [->|Hne]; csimpl; [done|].
  rewrite IH. by destruct (JsMap.get k m).
Qed.

Lemma JsMap_wf_set k v m : JsMap.wf m → JsMap.wf (JsMap.set k v m).
Proof.
  unfold JsMap.wf. rewrite JsMap_keys_set. intros Hnd.
  destruct (JsMap.has k m) eqn:Hk; [done|].
  apply NoDup_app. split_and!; [done| |apply NoDup_singleton].
  intros x Hx Hx'. apply list_elem_of_singleton in Hx' as ->.
  by apply JsMap_has_false_keys in Hk.
Qed.

Lemma JsMap_get_set_eq k v m : JsMap.get k (JsMap.set k v m) = Some v.
Proof.
  induction m as [|[k' v'] m IH]; csimpl.
  - by rewrite String.eqb_refl.
  - destruct (String.eqb k' k) eqn:E; csimpl; [by rewrite String.eqb_refl|].
    by rewrite E.
Qed.

Lemma JsMap_get_set_ne k k' v m :
  k ≠ k' → JsMap.get k' (JsMap.set k v m) = JsMap.get k' m.
Proof.
  intros Hne. induction m as [|[k0 v0] m IH]; csimpl.
  - destruct (String.eqb_spec k k'); [congruence | done].
  - destruct (String.eqb_spec k0 k) as [->|Hne0]; csimpl.
    + destruct (String.eqb_spec k k'); [congruence|].
      done.
    + by rewrite IH.
Qed.

Lemma JsMap_size_set k v m :
  JsMap.size (JsMap.set k v m) =
  if JsMap.has k m then JsMap.size m else S (JsMap.size m).
Proof.
  unfold JsMap.size, JsMap.has. induction m as [|[k' v'] m IH]; csimpl; [done|].
  destruct (String.eqb k' k); csimpl; [done|].
  rewrite IH. by destruct (JsMap.get k m).
Qed.
End JsMapFacts.

(** ** The monad *)
Lemma world_eta (w : World) :
  mkWorld (heap w) (activeConnections w) (pingInterval w) (trace w) = w.
Proof. by destruct w. Qed.

Lemma deref_emit e w r : deref (emit e w) r = deref w r.
Proof. done. Qed.

Ltac run := unfold bind, ret, gets, modify, throw, try_catch in *; simpl in *.

(** ** C7: removing from the registry *)
Import WebsocketPlugin.

(** C7. Removing an id that is not in the registry returns [false] and
    changes nothing; removing one that is there returns [true] and the
    registry is exactly one entry shorter, the rest of the state being as
    before. *)
Theorem removeConnection_idempotent (w : World) (id : string) :
  (JsMap.has id (activeConnections w) = false →
     removeConnection id w = (Ret false, w)) ∧
  (JsMap.has id (activeConnections w) = true →
     ∃ w', removeConnection id w = (Ret true, w') ∧
           S (JsMap.size (activeConnections w')) = JsMap.size (activeConnections w) ∧
           heap w' = heap w ∧ pingInterval w' = pingInterval w ∧
           trace w' = trace w).
Proof.
  unfold removeConnection. run. split; intros H; rewrite H.
  - unfold set_activeConnections. rewrite JsMap_delete_absent by done.
    by rewrite world_eta.
  - eexists. split; [reflexivity|]. simpl.
    split_and!; try done. by apply JsMap_delete_present_size.
Qed.

Lemma removeConnection_idempotent_witness :
  removeConnection "user:C:9" Samples.three_and_two =
    (Ret false, Samples.three_and_two) ∧
  ∃ w', removeConnection "user:A:3" Samples.three_and_two = (Ret true, w') ∧
        S (JsMap.size (activeConnections w')) =
          JsMap.size (activeConnections Samples.three_and_two) ∧
        heap w' = heap Samples.three_and_two ∧
        pingInterval w' = pingInterval Samples.three_and_two ∧
        trace w' = trace Samples.three_and_two.
Proof.
  split.
  - apply (proj1 (removeConnection_idempotent Samples.three_and_two "user:C:9")).
    reflexivity.
  - apply (proj2 (removeConnection_idempotent Samples.three_and_two "user:A:3")).
    reflexivity.
Defined.

(** ** The dispatch loops of the plugin *)

Lemma is_open_spec (c : Connection) :
  is_open c = bool_decide (readyState (socket c) = OPEN).
Proof. unfold is_open. by destruct (readyState (socket c)). Qed.

Lemma add_trace_nil (w : World) : add_trace [] w = w.
Proof. destruct w. unfold add_trace. simpl. by rewrite app_nil_r. Qed.

Lemma add_trace_emit e events w :
  add_trace events (emit e w) = add_trace (e :: events) w.
Proof. unfold add_trace, emit. simpl. by rewrite <- app_assoc. Qed.

Lemma until_failure_heap (w w' : World) (l : list Spec.entry) :
  heap w = heap w' → Spec.until_failure w l = Spec.until_failure w' l.
Proof.
  intros Hh. induction l as [|e l IH]; simpl; [done|].
  unfold Spec.raises, deref. by rewrite Hh, IH.
Qed.

(** The loop of a broadcast helper whose test on the entry, next to the
    OPEN test, is [wanted]. *)
Lemma dispatch_entries (p : Payload) (wanted : Connection → string → bool)
    (entries : list Spec.entry) : ∀ (n : nat) (w : World),
  forEach_entries_acc
    (fun (sentCount : nat) (r : Ref) (id : string) =>
       let* connection := gets (fun w => deref w r) in
       if wanted connection id && is_open connection
       then socket_send r p ;; ret (S sentCount)
       else ret sentCount)
    n entries w =
  match Spec.until_failure w
          (List.filter
             (fun e : Spec.entry =>
                wanted (deref w e.2) e.1 &&
                bool_decide (readyState (socket (deref w e.2)) = OPEN))
             entries) with
  | (written, None) =>
      (Ret (n + length written), add_trace (Spec.writes p written) w)
  | (written, Some e) =>
      (Throw (SendError e.2),
       add_trace (Spec.writes p written ++ [EvSendFailed e.2 p]) w)
  end.
Proof.
  induction entries as [|[id r] entries IH]; intros n w; simpl.
  - unfold ret. by rewrite Nat.add_0_r, add_trace_nil.
  - unfold bind at 1 2, gets at 1. simpl.
    rewrite is_open_spec.
    destruct (wanted (deref w r) id &&
              bool_decide (readyState (socket (deref w r)) = OPEN)) eqn:Hc.
    + unfold socket_send, bind at 1 2, gets. simpl.
      unfold Spec.raises at 1. simpl.
      destruct (send_raises (socket (deref w r))) eqn:Hs.
      * by run.
      * run. rewrite IH.
        change (deref (emit (EvSend r p) w)) with (deref w).
        rewrite (until_failure_heap (emit (EvSend r p) w) w) by done.
        destruct (Spec.until_failure w _) as [written [e|]];
          rewrite add_trace_emit; simpl;
          [done | by rewrite Nat.add_succ_r].
    + unfold ret at 1. by rewrite IH.
Qed.

(** [broadcastFiltered] is the dispatch over the entries its filter and
    the OPEN test choose. *)
Lemma broadcastFiltered_run (message : Message)
    (filterFn : Connection → string → bool) (w : World) :
  broadcastFiltered message filterFn w =
  Spec.dispatch (serialize message) (Spec.targets filterFn w) w.
Proof.
  unfold broadcastFiltered, forEach_acc, Spec.dispatch, Spec.targets.
  unfold bind at 1, gets at 1.
  rewrite (dispatch_entries (serialize message) filterFn).
  by destruct (Spec.until_failure _ _) as [written [e|]].
Qed.

(** [broadcast] likewise, its test being that the id is not the excluded one. *)
Lemma broadcast_run (message : Message) (excludeId : option string) (w : World) :
  broadcast message excludeId w =
  Spec.dispatch (serialize message)
    (Spec.targets (fun _ id => negb (excluded excludeId id)) w) w.
Proof.
  unfold broadcast, forEach_acc, Spec.dispatch, Spec.targets.
  unfold bind at 1, gets at 1.
  transitivity
    (forEach_entries_acc
       (fun (sentCount : nat) (r : Ref) (id : string) =>
          let* connection := gets (fun w => deref w r) in
          if negb (excluded excludeId id) && is_open connection
          then socket_send r (serialize message) ;; ret (S sentCount)
          else ret sentCount)
       0 (activeConnections w) w).
  - generalize 0. generalize w at 2 4.
    induction (activeConnections w) as [|[id r] entries IH]; intros w' n; simpl; [done|].
    destruct (excluded excludeId id); simpl.
    + unfold ret at 1, bind at 1 3, gets at 1, ret at 2. simpl. apply IH.
    + unfold socket_send. run.
      destruct (is_open (deref w' r)); [|apply IH].
      destruct (send_raises (socket (deref w' r))); [done | apply IH].
  - rewrite (dispatch_entries (serialize message)
               (fun _ id => negb (excluded excludeId id))).
    by destruct (Spec.until_failure _ _) as [written [e|]].
Qed.

Lemma until_failure_none (w : World) (l : list Spec.entry) :
  Forall (fun e => Spec.raises w e = false) l →
  Spec.until_failure w l = (l, None).
Proof.
  induction 1 as [|e l He _ IH]; simpl; [done|]. by rewrite He, IH.
Qed.

Lemma until_failure_first (w : World) (before after : list Spec.entry) (e : Spec.entry) :
  Forall (fun e => Spec.raises w e = false) before →
  Spec.raises w e = true →
  Spec.until_failure w (before ++ e :: after) = (before, Some e).
Proof.
  intros Hb He. induction Hb as [|e' l He' _ IH]; simpl.
  - by rewrite He.
  - by rewrite He', IH.
Qed.

Lemma until_failure_written (w : World) (l : list Spec.entry) :
  (Spec.until_failure w l).1 ⊆ l ∧
  ∀ e, (Spec.until_failure w l).2 = Some e → e ∈ l.
Proof.
  induction l as [|e l [IH1 IH2]]; simpl; [done|].
  destruct (Spec.raises w e).
  - simpl. split; [apply list_subseteq_nil|]. intros ? [= <-]. left.
  - destruct (Spec.until_failure w l) as [written failed]. simpl in *.
    split; [|intros e' He'; right; by apply IH2].
    intros x Hx. apply elem_of_cons in Hx as [->|Hx]; [left | right; by apply IH1].
Qed.

Lemma until_failure_ext (w w' : World) (l : list Spec.entry) :
  (∀ r, socket (deref w r) = socket (deref w' r)) →
  Spec.until_failure w l = Spec.until_failure w' l.
Proof.
  intros Hs. induction l as [|e l IH]; simpl; [done|].
  unfold Spec.raises. by rewrite Hs, IH.
Qed.

Lemma new_events_add_trace (events : list Event) (w : World) :
  Spec.new_events w (add_trace events w) = events.
Proof. unfold Spec.new_events, add_trace. simpl. apply drop_app_length. Qed.

Lemma deref_update (r r' : Ref) (f : Connection → Connection) (w : World) :
  deref (update r f w) r' = if decide (r = r') then f (deref w r) else deref w r'.
Proof.
  unfold deref, update, set_heap. simpl. destruct (decide (r = r')) as [->|Hne].
  - by rewrite lookup_total_insert_eq.
  - by rewrite lookup_total_insert_ne.
Qed.

Import TaskController.

Lemma ownedBy_task_recipient (userId : string) (c : Connection) (id : string) :
  ownedBy userId c id && bool_decide (readyState (socket c) = OPEN) =
  Spec.task_recipient userId c.
Proof.
  unfold ownedBy, Spec.task_recipient.
  destruct (user c) as [u|]; simpl; [|done].
  destruct (String.eqb_spec (user_id u) userId) as [->|Hne]; simpl.
  - apply bool_decide_ext. intuition.
  - symmetry. apply bool_decide_eq_false_2. intros [[=] _]. done.
Qed.

Lemma targets_ownedBy (userId : string) (w : World) :
  Spec.targets (ownedBy userId) w =
  List.filter (fun e => Spec.task_recipient userId (deref w e.2)) (activeConnections w).
Proof.
  unfold Spec.targets. apply filter_ext. intros e. apply ownedBy_task_recipient.
Qed.

Lemma dispatch_events_in (p : Payload) (l : list Spec.entry) (w : World) (ev : Event) :
  ev ∈ Spec.new_events w (Spec.dispatch p l w).2 →
  ∃ e, e ∈ l ∧ (ev = EvSend e.2 p ∨ ev = EvSendFailed e.2 p).
Proof.
  unfold Spec.dispatch.
  destruct (until_failure_written w l) as [Hsub Hf].
  destruct (Spec.until_failure w l) as [written [e|]]; simpl in *;
    rewrite new_events_add_trace; unfold Spec.writes.
  - intros Hin. apply elem_of_app in Hin as [Hin|Hin].
    + apply list_elem_of_fmap in Hin as [e' [-> He']].
      exists e'. split; [by apply Hsub | by left].
    + apply list_elem_of_singleton in Hin as ->.
      exists e. split; [by apply Hf | by right].
  - intros Hin. apply list_elem_of_fmap in Hin as [e' [-> He']].
    exists e'. split; [by apply Hsub | by left].
Qed.

(** ** C1: who receives a task event *)

(** C1. A task event of user [userId] goes through [broadcastFiltered] with
    the filter of the task controller.  Let the recipients be the registered
    connections owned by [userId] whose socket is OPEN.  (1) When no write to
    a recipient raises, exactly the recipients are written to, once each in
    registry order, and the count returned is their number.  (2) In every
    case, whatever is written or tried goes to a recipient, never to a
    connection of another user.  (3) Changing the subscriptions of any
    connection changes neither the result nor what is written. *)
Theorem task_event_fanout (w : World) (userId : string) (message : Message) :
  let recipients :=
    List.filter (fun e => Spec.task_recipient userId (deref w e.2))
                (activeConnections w) in
  (Forall (fun e => send_raises (socket (deref w e.2)) = false) recipients →
   broadcastFiltered message (ownedBy userId) w =
   (Ret (length recipients),
    add_trace (Spec.writes (serialize message) recipients) w)) ∧
  (∀ ev, ev ∈ Spec.new_events w (broadcastFiltered message (ownedBy userId) w).2 →
     ∃ e, e ∈ recipients ∧
          (ev = EvSend e.2 (serialize message) ∨
           ev = EvSendFailed e.2 (serialize message))) ∧
  (∀ r s,
     let w' := update r (set_subscriptions s) w in
     (broadcastFiltered message (ownedBy userId) w').1 =
     (broadcastFiltered message (ownedBy userId) w).1 ∧
     Spec.new_events w' (broadcastFiltered message (ownedBy userId) w').2 =
     Spec.new_events w (broadcastFiltered message (ownedBy userId) w).2).
Proof.
  intros recipients. split_and!.
  - intros Hok. rewrite broadcastFiltered_run, targets_ownedBy.
    fold recipients. unfold Spec.dispatch.
    by rewrite until_failure_none.
  - intros ev. rewrite broadcastFiltered_run, targets_ownedBy. fold recipients.
    apply dispatch_events_in.
  - intros r s w'. rewrite !broadcastFiltered_run, !targets_ownedBy.
    fold recipients.
    assert (Hc : ∀ r', user (deref w' r') = user (deref w r') ∧
                       socket (deref w' r') = socket (deref w r')).
    { intros r'. unfold w'. rewrite deref_update.
      by destruct (decide (r = r')) as [->|]. }
    assert (Hl : List.filter (fun e => Spec.task_recipient userId (deref w' e.2))
                             (activeConnections w') = recipients).
    { apply filter_ext. intros e. unfold Spec.task_recipient.
      by destruct (Hc e.2) as [-> ->]. }
    rewrite Hl. unfold Spec.dispatch.
    rewrite (until_failure_ext w' w) by (intros r'; apply Hc).
    destruct (Spec.until_failure w recipients) as [written [e|]];
      cbn [fst snd]; (split; [done | by rewrite !new_events_add_trace]).
Qed.

(** The instance of the theorem at five connections, three of A and two
    of B: the three of A are written to and the count is 3. *)
Lemma task_event_fanout_witness :
  createTask_notify "A" (JObj [("id", JStr "t1")]) Samples.three_and_two =
  (Ret 3,
   add_trace
     (Spec.writes (serialize (TASK_CREATED (JObj [("id", JStr "t1")])))
                  [("user:A:1", 1); ("user:A:3", 3); ("user:A:5", 5)])
     Samples.three_and_two).
Proof.
  apply (proj1 (task_event_fanout Samples.three_and_two "A"
                  (TASK_CREATED (JObj [("id", JStr "t1")])))).
  vm_compute. repeat constructor.
Defined.

(** ** C2: a write that raises *)

(** C2, as stated, fails: in [Samples.first_send_raises] both connections
    are eligible for a task event of A; the write to the first raises, the
    exception leaves [broadcastFiltered], and no write to the second is
    tried. *)
Lemma send_failure_aborts_dispatch :
  let w := Samples.first_send_raises in
  let result := createTask_notify "A" JNull w in
  ("user:A:2", 2) ∈ Spec.targets (ownedBy "A") w ∧
  result.1 = Throw (SendError 1) ∧
  Spec.new_events w result.2 = [EvSendFailed 1 (serialize (TASK_CREATED JNull))] ∧
  ¬ Spec.attempted 2 (serialize (TASK_CREATED JNull)) (Spec.new_events w result.2).
Proof.
  vm_compute. split_and!; try reflexivity.
  - right. left.
  - intros [H|H]; apply list_elem_of_singleton in H; discriminate.
Qed.

(** C2, amended.  [broadcastFiltered] visits the eligible connections in
    registry order.  When no write raises, each of them is written to.  When
    the write to one raises, the loop ends there: those before it have been
    written to, nothing is tried on those after it, and the exception reaches
    the caller in place of a count. *)
Theorem dispatch_stops_at_first_failure (w : World) (message : Message)
    (filterFn : Connection → string → bool) :
  (Forall (fun e => send_raises (socket (deref w e.2)) = false)
          (Spec.targets filterFn w) →
   broadcastFiltered message filterFn w =
   (Ret (length (Spec.targets filterFn w)),
    add_trace (Spec.writes (serialize message) (Spec.targets filterFn w)) w)) ∧
  (∀ before e after,
     Spec.targets filterFn w = before ++ e :: after →
     Forall (fun e => send_raises (socket (deref w e.2)) = false) before →
     send_raises (socket (deref w e.2)) = true →
     broadcastFiltered message filterFn w =
     (Throw (SendError e.2),
      add_trace (Spec.writes (serialize message) before ++
                 [EvSendFailed e.2 (serialize message)]) w)).
Proof.
  split.
  - intros Hok. rewrite broadcastFiltered_run. unfold Spec.dispatch.
    by rewrite until_failure_none.
  - intros before e after Ht Hok He. rewrite broadcastFiltered_run.
    unfold Spec.dispatch. rewrite Ht.
    by rewrite (until_failure_first w before after e).
Qed.

Lemma dispatch_stops_at_first_failure_witness :
  createTask_notify "A" JNull Samples.first_send_raises =
  (Throw (SendError 1),
   add_trace [EvSendFailed 1 (serialize (TASK_CREATED JNull))]
             Samples.first_send_raises).
Proof.
  apply (proj2 (dispatch_stops_at_first_failure Samples.first_send_raises
                  (TASK_CREATED JNull) (ownedBy "A"))
           [] ("user:A:1", 1) [("user:A:2", 2)]).
  - vm_compute. reflexivity.
  - constructor.
  - vm_compute. reflexivity.
Defined.

(** The sibling helper [broadcast] ends at the first write that raises in
    the same way. *)
Lemma broadcast_stops_at_first_failure (w : World) (message : Message)
    (excludeId : option string) (before after : list Spec.entry) (e : Spec.entry) :
  Spec.targets (fun _ id => negb (excluded excludeId id)) w = before ++ e :: after →
  Forall (fun e => send_raises (socket (deref w e.2)) = false) before →
  send_raises (socket (deref w e.2)) = true →
  broadcast message excludeId w =
  (Throw (SendError e.2),
   add_trace (Spec.writes (serialize message) before ++
              [EvSendFailed e.2 (serialize message)]) w).
Proof.
  intros Ht Hok He. rewrite broadcast_run. unfold Spec.dispatch. rewrite Ht.
  by rewrite (until_failure_first w before after e).
Qed.

(** ** C8: shutdown *)

Lemma shutdown_entries (entries : list Spec.entry) : ∀ w : World,
  forEach_entries
    (fun r _ => try_catch (socket_close r 1000 "Server shutting down")
                          (fun _ => ret tt))
    entries w =
  (Ret tt, add_trace (map (Spec.close_attempt w) entries) w).
Proof.
  induction entries as [|[id r] entries IH]; intros w; simpl.
  - unfold ret. by rewrite add_trace_nil.
  - unfold bind at 1, try_catch, socket_close, bind at 1 2 3, gets, modify,
      throw, ret at 1 2.
    unfold Spec.close_attempt at 1. simpl.
    destruct (close_raises (socket (deref w r))); rewrite IH, add_trace_emit; done.
Qed.

(** C8. The [onClose] hook, from any state: the timer is stopped; a close
    with code 1000 is tried on every registered connection, in registry
    order, whether or not an earlier close raised; the hook itself returns
    without an exception; the registry is empty afterwards and its count is
    zero. *)
Theorem shutdown_closes_everything (w : World) :
  ∃ w', onClose w = (Ret tt, w') ∧
        pingInterval w' = false ∧
        trace w' = trace w ++ map (Spec.close_attempt w) (activeConnections w) ∧
        heap w' = heap w ∧
        activeConnections w' = JsMap.empty ∧
        getConnectionsCount w' = (Ret 0, w').
Proof.
  unfold onClose, forEach.
  unfold bind at 1 2 3, modify at 1, gets at 1. simpl.
  rewrite shutdown_entries.
  eexists. split; [reflexivity|]. done.
Qed.

(** A close that raises on the last connection does not keep the earlier
    ones from being closed, nor the registry from being cleared. *)
Example shutdown_mixed_states :
  let result := onClose Samples.mixed_states in
  result.1 = Ret tt ∧
  trace result.2 =
    [EvClose 1 1000 "Server shutting down";
     EvClose 2 1000 "Server shutting down";
     EvCloseFailed 3 1000 "Server shutting down"] ∧
  activeConnections result.2 = [] ∧ pingInterval result.2 = false.
Proof. vm_compute. done. Qed.

(** ** C6: the ping timer and the ['close'] listener *)

Lemma tick_entries (entries : list Spec.entry) : ∀ (kept : list Spec.entry) (w : World),
  activeConnections w = kept ++ entries →
  NoDup (JsMap.keys (kept ++ entries)) →
  forEach_entries
    (fun r id =>
       let* connection := gets (fun w => deref w r) in
       if Nat.eqb (readyState_code (readyState (socket connection))) 1
       then socket_ping r
       else if Nat.leb 2 (readyState_code (readyState (socket connection)))
       then removeConnection id ;; ret tt
       else ret tt)
    entries w =
  (Ret tt,
   mkWorld (heap w)
           (kept ++ List.filter (fun e => negb (Spec.gone w e)) entries)
           (pingInterval w)
           (trace w ++ map (fun e => EvPing e.2)
                           (List.filter (Spec.state_is OPEN w) entries))).
Proof.
  induction entries as [|[id r] rest IH]; intros kept w Hreg Hnd.
  - simpl. unfold ret. rewrite !app_nil_r in *. by rewrite <- Hreg, world_eta.
  - cbn [forEach_entries].
    unfold bind at 1 2, gets at 1. cbn [List.filter].
    unfold Spec.gone at 1, Spec.state_is at 1 2 3. cbn [snd].
    assert (Hid : id ∉ JsMap.keys kept).
    { unfold JsMap.keys in *. rewrite fmap_app in Hnd.
      apply NoDup_app in Hnd as (_ & Hd & _).
      intros Hin. apply (Hd id Hin). left. }
    assert (Hnd' : NoDup (JsMap.keys (kept ++ rest))).
    { unfold JsMap.keys in *. rewrite fmap_app in *. csimpl in Hnd.
      apply NoDup_app in Hnd as (H1 & H2 & H3).
      apply NoDup_cons in H3 as [_ H3].
      apply NoDup_app. split_and!; [done| |done].
      intros x Hx Hx'. apply (H2 x Hx). by right. }
    destruct (readyState (socket (deref w r))) eqn:Hst; cbn.
    + unfold ret at 1.
      etrans; [apply (IH (kept ++ [(id, r)]) w); by rewrite <- ?app_assoc|].
      by rewrite <- app_assoc.
    + unfold socket_ping, modify.
      etrans; [apply (IH (kept ++ [(id, r)]) (emit (EvPing r) w));
               by rewrite <- ?app_assoc|].
      cbn. by rewrite <- !app_assoc.
    + unfold removeConnection, bind, gets, modify, ret.
      etrans; [apply (IH kept (set_activeConnections
                                 (JsMap.delete id (activeConnections w)) w));
               [cbn; rewrite Hreg; by apply JsMap_delete_middle | done]|].
      done.
    + unfold removeConnection, bind, gets, modify, ret.
      etrans; [apply (IH kept (set_activeConnections
                                 (JsMap.delete id (activeConnections w)) w));
               [cbn; rewrite Hreg; by apply JsMap_delete_middle | done]|].
      done.
Qed.

(** One tick on a registry: the OPEN connections are pinged, in registry
    order; the connections that are CLOSING or CLOSED leave the registry and
    all others stay, in their order. *)
Lemma pingTick_run (w : World) :
  JsMap.wf (activeConnections w) →
  pingTick w =
  (Ret tt,
   mkWorld (heap w)
           (List.filter (fun e => negb (Spec.gone w e)) (activeConnections w))
           (pingInterval w)
           (trace w ++ map (fun e => EvPing e.2)
                           (List.filter (Spec.state_is OPEN w) (activeConnections w)))).
Proof.
  intros Hwf. unfold pingTick, forEach. unfold bind at 1, gets at 1.
  by rewrite (tick_entries (activeConnections w) [] w).
Qed.

(** ** Admission: [authenticateWebSocket] and the route *)
Import AuthMiddleware WebsocketRoutes.

Lemma eqb_neq_empty (tok : string) : tok ≠ "" → String.eqb tok "" = false.
Proof. intros H. by apply String.eqb_neq. Qed.

Lemma find_no_live_session (tok : string) (now : Z) (l : list Session) :
  (∀ s, s ∈ l → session_token s = tok → (expiresAt s <= now)%Z) →
  List.find (fun s => String.eqb (session_token s) tok && Z.ltb now (expiresAt s)) l
  = None.
Proof.
  induction l as [|s l IH]; intros H; simpl; [done|].
  destruct (String.eqb_spec (session_token s) tok) as [Heq|Hne]; simpl.
  - destruct (Z.ltb_spec now (expiresAt s)) as [Hlt|Hle].
    + specialize (H s (list_elem_of_here _ _) Heq). lia.
    + apply IH. intros s' Hs'. apply H. by right.
  - apply IH. intros s' Hs'. apply H. by right.
Qed.

Lemma socket_close_ok (r : Ref) (code : Z) (reason : string) (w : World) :
  close_raises (socket (deref w r)) = false →
  socket_close r code reason w = (Ret tt, emit (EvClose r code reason) w).
Proof. intros H. unfold socket_close. run. by rewrite H. Qed.

Lemma socket_send_ok (r : Ref) (p : Payload) (w : World) :
  send_raises (socket (deref w r)) = false →
  socket_send r p w = (Ret tt, emit (EvSend r p) w).
Proof. intros H. unfold socket_send. run. by rewrite H. Qed.

Lemma new_events_app (w w' : World) (events : list Event) :
  trace w' = trace w ++ events → Spec.new_events w w' = events.
Proof. intros H. unfold Spec.new_events. rewrite H. apply drop_app_length. Qed.

Lemma new_events_none (w w' : World) :
  trace w' = trace w → Spec.new_events w w' = [].
Proof. intros H. apply new_events_app. by rewrite app_nil_r. Qed.

Lemma new_events_emit (e : Event) (w : World) :
  Spec.new_events w (emit e w) = [e].
Proof. apply (new_events_add_trace [e] w). Qed.

Lemma socket_update_user (r : Ref) (u : option User) (w : World) :
  socket (deref (update r (set_user u) w) r) = socket (deref w r).
Proof. rewrite deref_update. by destruct (decide (r = r)). Qed.

(** A valid credential is admitted: the user of the session is attached
    to the connection and nothing is closed. *)
Lemma authenticate_valid (env : AuthEnv) (now : Z) (r : Ref) (request : Request)
    (s : Session) (w : World) :
  Spec.valid_credential env now request s →
  authenticateWebSocket env now r request w =
  (Ret true, update r (set_user (Some (session_user s))) w).
Proof.
  intros (q & tok & decoded & -> & Htok & Hne & Hv & Hst & Hf & Hid).
  unfold authenticateWebSocket, findFirst. run.
  rewrite Htok, (eqb_neq_empty _ Hne), Hv, Hst. simpl. rewrite Hf. simpl.
  by rewrite bool_decide_eq_true_2.
Qed.

(** ** C3: what a client sees when its credential is refused *)

(** C3, as stated, fails: a request without a token and a request whose
    session has expired are both closed with code 1008, but with different
    reasons, so the client can tell which check failed. *)
Lemma auth_failures_are_distinguishable :
  let w := Samples.two_arrivals in
  let missing := authenticateWebSocket Samples.env 150 1 Samples.without_token w in
  let expired :=
    authenticateWebSocket Samples.env 150 1 (Samples.with_token "t-alice") w in
  Spec.auth_failure Samples.env 150 Samples.without_token "Authentication required" ∧
  Spec.auth_failure Samples.env 150 (Samples.with_token "t-alice")
    "Invalid or expired session" ∧
  Spec.new_events w missing.2 = [EvClose 1 1008 "Authentication required"] ∧
  Spec.new_events w expired.2 = [EvClose 1 1008 "Invalid or expired session"] ∧
  Spec.new_events w missing.2 ≠ Spec.new_events w expired.2.
Proof.
  split_and!; try (vm_compute; done).
  - apply Spec.missing_token. by left.
  - apply (Spec.no_live_session _ _ _ "t-alice" (mkJwtPayload (Some "A")));
      try done.
    intros s Hs Ht.
    apply elem_of_cons in Hs as [->|Hs]; [simpl; lia|].
    apply list_elem_of_singleton in Hs as ->. simpl. lia.
Qed.

(** C3, amended.  Every way a credential fails (no token, a token that does
    not verify, no session that has not expired, a session of another user)
    ends with [false] and one close of the socket with code 1008; the reason
    sent with it is "Authentication required", "Invalid authentication
    token" or "Invalid or expired session" according to the check that
    failed.  While the session store answers, a close with another code is
    sent only when reading the request raises, outside the checks of the
    token and the session, and its code is 1011. *)
Theorem auth_failure_closes_1008 (env : AuthEnv) (now : Z) (r : Ref)
    (request : Request) (w : World) :
  close_raises (socket (deref w r)) = false →
  (∀ reason, Spec.auth_failure env now request reason →
     ∃ w', authenticateWebSocket env now r request w = (Ret false, w') ∧
           Spec.new_events w w' = [EvClose r 1008 reason] ∧
           activeConnections w' = activeConnections w) ∧
  (store_fails env = false →
   ∀ r' code reason,
     EvClose r' code reason ∈
       Spec.new_events w (authenticateWebSocket env now r request w).2 →
     code = 1008%Z ∨ (code = 1011%Z ∧ query request = None)).
Proof.
  intros Hc. split.
  - intros reason Hf. destruct Hf as [q Hq|q tok Htok Hne Hv
      |q tok decoded Htok Hne Hv Hst Hs|q tok decoded s Htok Hne Hv Hst Hs Hid];
      unfold authenticateWebSocket, findFirst; run.
    + destruct Hq as [-> | ->]; simpl; rewrite socket_close_ok by done;
        (eexists; split; [reflexivity|]); by rewrite new_events_emit.
    + rewrite Htok, (eqb_neq_empty _ Hne), Hv. simpl.
      rewrite socket_close_ok by done.
      eexists; split; [reflexivity|]. by rewrite new_events_emit.
    + rewrite Htok, (eqb_neq_empty _ Hne), Hv, Hst. simpl.
      rewrite (find_no_live_session _ _ _ Hs). simpl.
      rewrite socket_close_ok by done.
      eexists; split; [reflexivity|]. by rewrite new_events_emit.
    + rewrite Htok, (eqb_neq_empty _ Hne), Hv, Hst. simpl. rewrite Hs. simpl.
      rewrite bool_decide_eq_false_2 by done.
      rewrite socket_close_ok by (by rewrite socket_update_user).
      eexists; split; [reflexivity|].
      split; [|done]. apply (new_events_add_trace [_] w).
  - intros Hst r' code reason.
    unfold authenticateWebSocket, findFirst; run. rewrite Hst.
    destruct (query request) as [q|]; simpl.
    + destruct (token q) as [tok|]; simpl;
        [destruct (String.eqb tok ""); simpl;
         [|destruct (jwt_verify env tok) as [decoded|]; simpl;
           [destruct (List.find _ (sessions env)) as [s|]; simpl;
              [case_bool_decide; simpl|]|]]|];
        rewrite ?socket_close_ok by (by rewrite ?socket_update_user); simpl;
        first [erewrite new_events_none by reflexivity
              |erewrite (new_events_app _ _ [_]) by reflexivity];
        intros Hin;
        try (apply list_elem_of_singleton in Hin; injection Hin as -> -> ->; by left);
        by apply elem_of_nil in Hin.
    + rewrite socket_close_ok by done. simpl. rewrite new_events_emit.
      intros Hin. apply list_elem_of_singleton in Hin. injection Hin as -> -> ->.
      by right.
Qed.

Lemma auth_failure_closes_1008_witness :
  (∃ w', authenticateWebSocket Samples.env 50 1 (Samples.with_token "t-forged")
           Samples.two_arrivals = (Ret false, w') ∧
         Spec.new_events Samples.two_arrivals w' =
           [EvClose 1 1008 "Invalid authentication token"] ∧
         activeConnections w' = activeConnections Samples.two_arrivals) ∧
  (1011 = 1008 ∨ 1011 = 1011 ∧ query (mkRequest None) = None)%Z.
Proof.
  split.
  - apply (proj1 (auth_failure_closes_1008 Samples.env 50 1
                    (Samples.with_token "t-forged") Samples.two_arrivals eq_refl)).
    apply (Spec.verification_failed _ _ _ "t-forged"); [reflexivity | | reflexivity].
    discriminate.
  - apply (proj2 (auth_failure_closes_1008 Samples.env 50 1
                    (mkRequest None) Samples.two_arrivals eq_refl)
             eq_refl 1 1011%Z "Internal server error").
    vm_compute. left.
Defined.

(** When the session query raises, the exception is caught by the inner
    handler, next to those of the verification: the socket is closed with
    1008 as for a token that does not verify. *)
Lemma store_failure_closes_1008 (env : AuthEnv) (now : Z) (r : Ref)
    (tok : string) (decoded : JwtPayload) (w : World) :
  tok ≠ "" → jwt_verify env tok = Some decoded → store_fails env = true →
  close_raises (socket (deref w r)) = false →
  authenticateWebSocket env now r (mkRequest (Some (mkQuery (Some tok)))) w =
  (Ret false, emit (EvClose r 1008 "Invalid authentication token") w).
Proof.
  intros Hne Hv Hst Hc. unfold authenticateWebSocket, findFirst. run.
  rewrite (eqb_neq_empty _ Hne), Hv, Hst. simpl. by rewrite socket_close_ok.
Qed.

Lemma deref_update_eq (r : Ref) (f : Connection → Connection) (w : World) :
  deref (update r f w) r = f (deref w r).
Proof. rewrite deref_update. by destruct (decide (r = r)). Qed.

Lemma deref_update_ne (r r' : Ref) (f : Connection → Connection) (w : World) :
  r ≠ r' → deref (update r f w) r' = deref w r'.
Proof. intros H. rewrite deref_update. by destruct (decide (r = r')). Qed.

Lemma deref_set_activeConnections (m : JsMap.t Ref) (w : World) (r : Ref) :
  deref (set_activeConnections m w) r = deref w r.
Proof. done. Qed.

Ltac deref_simpl :=
  repeat first
    [ rewrite deref_update_eq
    | rewrite deref_emit
    | rewrite deref_set_activeConnections
    | rewrite deref_update_ne by done ].

(** The route on a valid credential, when the write of CONNECTED does not
    raise. *)
Lemma updates_admits (env : AuthEnv) (authTime : Z) (clock : Clock) (r : Ref)
    (request : Request) (s : Session) (w : World) :
  Spec.valid_credential env authTime request s →
  send_raises (socket (deref w r)) = false →
  let userId := user_id (session_user s) in
  let cid := connectionId userId (now_ms clock) in
  ∃ w', updates env authTime clock r request w = (Ret tt, w') ∧
        activeConnections w' = JsMap.set cid r (activeConnections w) ∧
        trace w' = trace w ++ [EvSend r (CONNECTED userId (now_iso clock))] ∧
        pingInterval w' = pingInterval w ∧
        user (deref w' r) = Some (session_user s) ∧
        subscriptions (deref w' r) = subscriptions (deref w r) ∧
        readyState (socket (deref w' r)) = readyState (socket (deref w r)) ∧
        on_message (socket (deref w' r)) = on_message (socket (deref w r)) ++ [userId] ∧
        on_close (socket (deref w' r)) = on_close (socket (deref w r)) ++ [cid] ∧
        (∀ r', r ≠ r' → deref w' r' = deref w r').
Proof.
  intros Hv Hs userId cid. unfold updates.
  unfold bind at 1. rewrite (authenticate_valid _ _ _ _ s) by done. simpl.
  unfold bind at 1, gets at 1. rewrite deref_update_eq. simpl.
  unfold bind at 1, ret at 1.
  unfold bind at 1, addConnection, modify at 1.
  unfold bind at 1. rewrite socket_send_ok
    by (unfold deref, update, set_heap, set_activeConnections in *; simpl;
        by rewrite lookup_total_insert_eq).
  unfold bind at 1, socket_on_message, socket_on_close, modify.
  eexists. split; [reflexivity|].
  split_and!; try reflexivity; try (by deref_simpl).
  intros r' Hne. by deref_simpl.
Qed.

(** The ['close'] listeners of a socket, run in turn. *)
Lemma run_close_listeners (ids : list string) : ∀ w : World,
  Transport.run_listeners onSocketClose ids w =
  (Ret tt,
   set_activeConnections
     (fold_left (fun m id => JsMap.delete id m) ids (activeConnections w)) w).
Proof.
  induction ids as [|id ids IH]; intros w; simpl.
  - unfold ret, set_activeConnections. by rewrite world_eta.
  - unfold bind at 1, onSocketClose, removeConnection. run. by rewrite IH.
Qed.

Lemma transport_closed_run (r : Ref) (w : World) :
  Transport.closed r w =
  (Ret tt,
   set_activeConnections
     (fold_left (fun m id => JsMap.delete id m) (on_close (socket (deref w r)))
                (activeConnections w))
     (update r (Transport.set_readyState CLOSED) w)).
Proof.
  unfold Transport.closed. unfold bind at 1, modify at 1.
  unfold bind at 1, gets at 1. rewrite deref_update_eq.
  by rewrite run_close_listeners.
Qed.

Lemma JsMap_has_delete_other {V} (k k' : string) (m : JsMap.t V) :
  JsMap.has k m = false → JsMap.has k (JsMap.delete k' m) = false.
Proof.
  rewrite !JsMap_has_false_keys. intros H Hin. apply H.
  by apply (JsMap_keys_delete k' m).
Qed.

Lemma JsMap_has_fold_delete {V} (k : string) (ids : list string) : ∀ m : JsMap.t V,
  JsMap.wf m → (k ∈ ids ∨ JsMap.has k m = false) →
  JsMap.has k (fold_left (fun m id => JsMap.delete id m) ids m) = false.
Proof.
  induction ids as [|id ids IH]; intros m Hwf Hk; simpl.
  - destruct Hk as [Hk|Hk]; [by apply elem_of_nil in Hk | done].
  - apply IH; [by apply JsMap_wf_delete|].
    destruct Hk as [Hk|Hk].
    + apply elem_of_cons in Hk as [->|Hk]; [right; by apply JsMap_has_delete | by left].
    + right. by apply JsMap_has_delete_other.
Qed.

(** C6, as stated, fails in its last sentence: a connection admitted by the
    route is taken out of the registry by the ['close'] listener of its
    socket, when the socket closes; no tick of the timer runs in between. *)
Lemma closed_connection_leaves_at_once :
  let w1 := (updates Samples.env 50 Samples.clock 1 (Samples.with_token "t-alice")
               Samples.two_arrivals).2 in
  let w2 := (Transport.closed 1 w1).2 in
  activeConnections w1 = [("user:A:1700000000000", 1)] ∧
  readyState (socket (deref w2 1)) = CLOSED ∧
  activeConnections w2 = [] ∧
  Spec.new_events w1 w2 = [].
Proof. vm_compute. done. Qed.

(** C6, amended.  One tick, on a registry: every OPEN connection is pinged
    and stays, every CLOSING or CLOSED connection is removed, the others
    stay.  A connection admitted by the route is removed from the registry
    by its ['close'] listener as soon as its socket is closed; the tick
    removes what is still registered then. *)
Theorem tick_and_close_listener :
  (∀ w : World,
     JsMap.wf (activeConnections w) →
     pingTick w =
     (Ret tt,
      mkWorld (heap w)
              (List.filter (fun e => negb (Spec.gone w e)) (activeConnections w))
              (pingInterval w)
              (trace w ++ map (fun e => EvPing e.2)
                              (List.filter (Spec.state_is OPEN w)
                                           (activeConnections w))))) ∧
  (∀ env authTime clock r request s w,
     Spec.valid_credential env authTime request s →
     send_raises (socket (deref w r)) = false →
     JsMap.wf (activeConnections w) →
     let cid := connectionId (user_id (session_user s)) (now_ms clock) in
     ∃ w1 w2,
       updates env authTime clock r request w = (Ret tt, w1) ∧
       JsMap.get cid (activeConnections w1) = Some r ∧
       Transport.closed r w1 = (Ret tt, w2) ∧
       readyState (socket (deref w2 r)) = CLOSED ∧
       JsMap.has cid (activeConnections w2) = false ∧
       trace w2 = trace w1).
Proof.
  split; [apply pingTick_run|].
  intros env authTime clock r request s w Hv Hs Hwf cid.
  destruct (updates_admits env authTime clock r request s w Hv Hs)
    as (w1 & Hrun & Hreg & _ & _ & _ & _ & _ & _ & Hclose & _).
  exists w1. eexists. split; [done|].
  split; [rewrite Hreg; apply JsMap_get_set_eq|].
  split; [apply transport_closed_run|].
  split_and!.
  - by deref_simpl.
  - cbn. apply JsMap_has_fold_delete.
    + rewrite Hreg. by apply JsMap_wf_set.
    + left. rewrite Hclose. apply elem_of_app. right. left.
  - done.
Qed.

Lemma alice_credential :
  Spec.valid_credential Samples.env 50 (Samples.with_token "t-alice")
    (mkSession "t-alice" 100 Samples.alice).
Proof.
  exists (mkQuery (Some "t-alice")), "t-alice", (mkJwtPayload (Some "A")).
  split_and!; try reflexivity. discriminate.
Defined.

Lemma tick_and_close_listener_witness :
  (pingTick Samples.mixed_states).1 = Ret tt ∧
  ∃ w1 w2,
    updates Samples.env 50 Samples.clock 1 (Samples.with_token "t-alice")
      Samples.two_arrivals = (Ret tt, w1) ∧
    JsMap.get "user:A:1700000000000" (activeConnections w1) = Some 1 ∧
    Transport.closed 1 w1 = (Ret tt, w2) ∧
    readyState (socket (deref w2 1)) = CLOSED ∧
    JsMap.has "user:A:1700000000000" (activeConnections w2) = false ∧
    trace w2 = trace w1.
Proof.
  split.
  - rewrite (proj1 tick_and_close_listener Samples.mixed_states); [reflexivity|].
    unfold JsMap.wf. apply (bool_decide_unpack (NoDup _)). vm_compute. exact I.
  - apply (proj2 tick_and_close_listener Samples.env 50%Z Samples.clock 1
             (Samples.with_token "t-alice") (mkSession "t-alice" 100 Samples.alice)
             Samples.two_arrivals alice_credential eq_refl).
    unfold JsMap.wf. apply (bool_decide_unpack (NoDup _)). vm_compute. exact I.
Defined.

(** The tick on a registry with an open, a closed and a closing
    connection. *)
Example tick_mixed_states :
  let result := pingTick Samples.mixed_states in
  result.1 = Ret tt ∧
  activeConnections result.2 = [("user:A:1", 1)] ∧
  trace result.2 = [EvPing 1].
Proof. vm_compute. done. Qed.

(** The tick, connection by connection. *)
Lemma pingTick_per_connection (w : World) (e : Spec.entry) :
  JsMap.wf (activeConnections w) →
  e ∈ activeConnections w →
  let w' := (pingTick w).2 in
  (readyState (socket (deref w e.2)) = OPEN →
   EvPing e.2 ∈ Spec.new_events w w' ∧ e ∈ activeConnections w') ∧
  (readyState (socket (deref w e.2)) = CLOSING ∨
   readyState (socket (deref w e.2)) = CLOSED →
   e ∉ activeConnections w').
Proof.
  intros Hwf He w'. unfold w'. rewrite pingTick_run by done. cbn [snd].
  erewrite new_events_app by reflexivity. cbn [activeConnections].
  split.
  - intros Hst. split.
    + apply list_elem_of_fmap. exists e. split; [done|].
      apply list_elem_of_In, filter_In. split; [by apply list_elem_of_In|].
      unfold Spec.state_is. by apply bool_decide_eq_true_2.
    + apply list_elem_of_In, filter_In. split; [by apply list_elem_of_In|].
      cbv beta. unfold Spec.gone, Spec.state_is. rewrite Hst. done.
  - intros Hst Hin. apply list_elem_of_In, filter_In in Hin as [_ Hin].
    cbv beta in Hin. unfold Spec.gone, Spec.state_is in Hin.
    by destruct Hst as [Hst | Hst]; rewrite Hst in Hin.
Qed.

(** ** C5: the ids of admitted connections *)

Lemma colon_in_append (u d : string) :
  ":"%char ∈ list_ascii_of_string (u +:+ String ":" d).
Proof. induction u as [|c u IH]; simpl; [left | by right]. Qed.

Lemma append_colon_inj (u1 : string) : ∀ (u2 d1 d2 : string),
  ":"%char ∉ list_ascii_of_string d1 →
  ":"%char ∉ list_ascii_of_string d2 →
  u1 +:+ String ":" d1 = u2 +:+ String ":" d2 →
  u1 = u2 ∧ d1 = d2.
Proof.
  induction u1 as [|c1 u1 IH]; intros [|c2 u2] d1 d2 H1 H2 Heq; simpl in Heq.
  - by injection Heq as ->.
  - injection Heq as <- ->. destruct H1. apply colon_in_append.
  - injection Heq as -> <-. destruct H2. apply colon_in_append.
  - injection Heq as -> Heq. destruct (IH u2 d1 d2 H1 H2 Heq) as [-> ->]. done.
Qed.

Lemma string_of_uint_no_colon (d : Decimal.uint) :
  ":"%char ∉ list_ascii_of_string (NilEmpty.string_of_uint d).
Proof.
  induction d; simpl; try (apply not_elem_of_cons; split; [discriminate | done]).
  apply not_elem_of_nil.
Qed.

Lemma decimal_no_colon (n : Z) : ":"%char ∉ list_ascii_of_string (decimal n).
Proof.
  unfold decimal. destruct (Z.to_int n) as [d|d]; simpl.
  - apply string_of_uint_no_colon.
  - apply not_elem_of_cons. split; [discriminate | apply string_of_uint_no_colon].
Qed.

Lemma decimal_inj (a b : Z) : decimal a = decimal b → a = b.
Proof.
  unfold decimal. intros H. apply DecimalZ.to_int_inj.
  assert (Hs : Some (Z.to_int a) = Some (Z.to_int b))
    by (by rewrite <- !NilEmpty.isi, H).
  by injection Hs.
Qed.

Lemma connectionId_inj (u1 u2 : string) (t1 t2 : Z) :
  connectionId u1 t1 = connectionId u2 t2 → u1 = u2 ∧ t1 = t2.
Proof.
  unfold connectionId. intros H. simpl in H. injection H as H.
  apply append_colon_inj in H as [-> H]; try apply decimal_no_colon.
  split; [done | by apply decimal_inj].
Qed.

(** C5.  The code at two admissions of one user within one millisecond: both
    sockets get the same id; the second admission overwrites the entry of
    the first, which is open and is no longer registered; and when the first
    socket closes later, its listener removes the shared id, so that the
    second connection, still open, is not registered either. *)
Lemma same_millisecond_same_id :
  let w1 := (updates Samples.env 50 Samples.clock 1 (Samples.with_token "t-alice")
               Samples.two_arrivals).2 in
  let w2 := (updates Samples.env 50 Samples.clock 2 (Samples.with_token "t-alice")
               w1).2 in
  let w3 := (Transport.closed 1 w2).2 in
  activeConnections w1 = [("user:A:1700000000000", 1)] ∧
  activeConnections w2 = [("user:A:1700000000000", 2)] ∧
  readyState (socket (deref w2 1)) = OPEN ∧
  user (deref w2 1) = Some Samples.alice ∧
  (getAllConnections w2).1 = Ret [2] ∧
  activeConnections w3 = [] ∧
  readyState (socket (deref w3 2)) = OPEN.
Proof. vm_compute. done. Qed.

(** The id of a connection is made of the id of its user and of the
    reading of the millisecond clock at its admission, and both can be read
    back from it: two admissions that differ in the user or in that reading
    get different ids, and registering the second connection leaves the first
    one registered. *)
Lemma distinct_readings_distinct_ids (u1 u2 : string) (t1 t2 : Z) :
  (connectionId u1 t1 = connectionId u2 t2 → u1 = u2 ∧ t1 = t2) ∧
  (u1 ≠ u2 ∨ t1 ≠ t2 →
   ∀ (r1 r2 : Ref) (w : World),
     let w' := (addConnection (connectionId u2 t2) r2
                  (addConnection (connectionId u1 t1) r1 w).2).2 in
     JsMap.get (connectionId u1 t1) (activeConnections w') = Some r1 ∧
     JsMap.get (connectionId u2 t2) (activeConnections w') = Some r2).
Proof.
  split.
  - apply connectionId_inj.
  - intros Hne r1 r2 w. cbn.
    assert (Hid : connectionId u2 t2 ≠ connectionId u1 t1).
    { intros H. apply connectionId_inj in H as [-> ->]. by destruct Hne. }
    split.
    + rewrite JsMap_get_set_ne by done. apply JsMap_get_set_eq.
    + apply JsMap_get_set_eq.
Qed.

Example next_millisecond_next_id :
  let w' := (addConnection (connectionId "A" 1700000000001) 2
               (addConnection (connectionId "A" 1700000000000) 1
                  Samples.two_arrivals).2).2 in
  JsMap.get (connectionId "A" 1700000000000) (activeConnections w') = Some 1 ∧
  JsMap.get (connectionId "A" 1700000000001) (activeConnections w') = Some 2.
Proof.
  apply (proj2 (distinct_readings_distinct_ids "A" "A"
                  1700000000000%Z 1700000000001%Z)).
  right. lia.
Qed.

(** ** The frames of the route *)

Lemma socket_send_cases (r : Ref) (p : Payload) (w : World) :
  socket_send r p w = (Ret tt, emit (EvSend r p) w) ∨
  socket_send r p w = (Throw (SendError r), emit (EvSendFailed r p) w).
Proof.
  unfold socket_send. run. destruct (send_raises (socket (deref w r))); auto.
Qed.

Lemma socket_close_cases (r : Ref) (code : Z) (reason : string) (w : World) :
  socket_close r code reason w = (Ret tt, emit (EvClose r code reason) w) ∨
  socket_close r code reason w =
    (Throw (CloseError r), emit (EvCloseFailed r code reason) w).
Proof.
  unfold socket_close. run. destruct (close_raises (socket (deref w r))); auto.
Qed.

Ltac new_events_simpl :=
  first [ erewrite new_events_none by reflexivity
        | erewrite new_events_app by (cbn; rewrite <- ?app_assoc; reflexivity) ].

Ltac send_cases :=
  repeat match goal with
         | |- context [socket_send ?r ?p ?w] =>
             destruct (socket_send_cases r p w) as [-> | ->]
         end.

(** ** C9: unsubscribing *)

(** C9. A frame whose [type] is UNSUBSCRIBE_TASKS, on any connection, with
    or without an earlier subscription: the handler returns and what it
    writes is the one frame UNSUBSCRIBED for channel "tasks", no ERROR frame
    (the write to the socket not raising); the tasks flag of the connection
    is false afterwards; a subscriptions object that exists keeps the key
    "tasks", now false, and one that does not exist is not created. *)
Theorem unsubscribe_confirms (clock : Clock) (r : Ref) (userId : string)
    (data : JValue) (w : World) :
  prop "type" data = Some (JStr "UNSUBSCRIBE_TASKS") →
  let result := onMessage clock r userId (Parsed data) w in
  (send_raises (socket (deref w r)) = false →
   result.1 = Ret tt ∧
   Spec.new_events w result.2 = [EvSend r (UNSUBSCRIBED (now_iso clock))]) ∧
  Spec.tasks_flag (deref result.2 r) = false ∧
  match subscriptions (deref w r) with
  | Some s => subscriptions (deref result.2 r) = Some (<["tasks" := false]> s)
  | None => subscriptions (deref result.2 r) = None
  end.
Proof.
  intros Htype. destruct data; try discriminate. simpl in Htype.
  unfold onMessage, try_catch, bind, JSON_parse, get_type, log_received, ret,
    gets, modify. cbn [prop]. rewrite Htype. cbn [toString_throws switch].
  change (String.eqb "UNSUBSCRIBE_TASKS" "PING") with false.
  change (String.eqb "UNSUBSCRIBE_TASKS" "SUBSCRIBE_TASKS") with false.
  change (String.eqb "UNSUBSCRIBE_TASKS" "UNSUBSCRIBE_TASKS") with true.
  cbv iota.
  destruct (subscriptions (deref w r)) as [s|] eqn:Hsub.
  - rewrite bool_decide_eq_true_2 by done.
    split_and!.
    + intros Hs. rewrite socket_send_ok by (deref_simpl; unfold unsubscribe_tasks;
        rewrite Hsub; done).
      split; [done|]. by new_events_simpl.
    + send_cases; cbn [fst snd]; deref_simpl;
        unfold Spec.tasks_flag, unsubscribe_tasks; rewrite Hsub; simpl;
        by rewrite lookup_insert_eq.
    + send_cases; cbn [fst snd]; deref_simpl;
        unfold unsubscribe_tasks; by rewrite Hsub.
  - rewrite bool_decide_eq_false_2 by (rewrite <- eq_None_not_Some; done).
    split_and!.
    + intros Hs. rewrite socket_send_ok by done.
      split; [done|]. by new_events_simpl.
    + send_cases; cbn [fst snd]; deref_simpl;
        unfold Spec.tasks_flag; by rewrite Hsub.
    + send_cases; cbn [fst snd]; by deref_simpl.
Qed.

Lemma unsubscribe_confirms_witness :
  let data := JObj [("type", JStr "UNSUBSCRIBE_TASKS")] in
  let result := onMessage Samples.clock 1 "A" (Parsed data) Samples.three_and_two in
  result.1 = Ret tt ∧
  Spec.new_events Samples.three_and_two result.2 =
    [EvSend 1 (UNSUBSCRIBED (now_iso Samples.clock))].
Proof.
  apply (proj1 (unsubscribe_confirms Samples.clock 1 "A"
                  (JObj [("type", JStr "UNSUBSCRIBE_TASKS")])
                  Samples.three_and_two eq_refl)).
  reflexivity.
Defined.

(** Connection 5 of the sample subscribed before: its key stays, with
    the value false. *)
Example unsubscribe_keeps_the_key :
  let data := JObj [("type", JStr "UNSUBSCRIBE_TASKS")] in
  let result := onMessage Samples.clock 5 "A" (Parsed data) Samples.three_and_two in
  subscriptions (deref result.2 5) = Some {["tasks" := false]}.
Proof. vm_compute. done. Qed.

(** ** C4: the [timestamp] of outbound frames *)

Ltac in_list H :=
  cbn in H;
  repeat (apply elem_of_cons in H as [->|H]);
  try (by apply elem_of_nil in H).

Ltac stamped_frame ty :=
  exists ty; split; [by repeat constructor | eexists; split_and!; reflexivity].

Ltac handler_step :=
  first
    [ match goal with
      | |- context [socket_send ?r ?p ?w] =>
          destruct (socket_send_cases r p w) as [-> | ->]
      end
    | match goal with
      | |- context [toString_throws ?v] => destruct (toString_throws v)
      end
    | match goal with
      | |- context [switch ?t] => destruct (switch t)
      end
    | match goal with
      | |- context [bool_decide ?P] => destruct (bool_decide P)
      end
    | match goal with
      | |- context [assoc ?k ?f] => destruct (assoc k f)
      end ].

Lemma onMessage_frames (clock : Clock) (r : Ref) (userId : string)
    (message : Inbound) (w : World) (ev : Event) (p : Payload) :
  ev ∈ Spec.new_events w (onMessage clock r userId message w).2 →
  Spec.frame_of ev = Some p →
  ∃ type, type ∈ ["PONG"; "SUBSCRIBED"; "UNSUBSCRIBED"; "ERROR"] ∧
          Spec.stamped type (now_iso clock) p.
Proof.
  unfold onMessage, try_catch, bind, JSON_parse, get_type, log_received, ret,
    throw, gets, modify.
  destruct message as [|data]; [|destruct data; cbn [prop]];
    repeat (cbv beta iota; handler_step);
    cbn [fst snd]; new_events_simpl; intros Hin Hf; in_list Hin;
    injection Hf as <-;
    first [ stamped_frame "PONG" | stamped_frame "SUBSCRIBED"
          | stamped_frame "UNSUBSCRIBED" | stamped_frame "ERROR" ].
Qed.

Ltac auth_step :=
  first
    [ match goal with
      | |- context [socket_close ?r ?c ?m ?w] =>
          destruct (socket_close_cases r c m w) as [-> | ->]
      end
    | match goal with
      | |- context [query ?x] => destruct (query x) as [?q|]
      end
    | match goal with
      | |- context [token ?q] => destruct (token q) as [?tok|]
      end
    | match goal with
      | |- context [String.eqb ?a ?b] => destruct (String.eqb a b)
      end
    | match goal with
      | |- context [jwt_verify ?e ?t] => destruct (jwt_verify e t) as [?decoded|]
      end
    | match goal with
      | |- context [store_fails ?e] => destruct (store_fails e)
      end
    | match goal with
      | |- context [List.find ?f ?l] => destruct (List.find f l) as [?s|]
      end
    | match goal with
      | |- context [bool_decide ?P] => destruct (bool_decide P)
      end ].

(** [authenticateWebSocket] either admits, and then it has only attached
    the user to the connection, or does not, and then it has written no
    frame: all it did to the socket were calls of [close]. *)
Lemma authenticate_shape (env : AuthEnv) (now : Z) (r : Ref)
    (request : Request) (w : World) :
  (∃ u, authenticateWebSocket env now r request w =
        (Ret true, update r (set_user (Some u)) w)) ∨
  ((authenticateWebSocket env now r request w).1 ≠ Ret true ∧
   Forall (fun ev => Spec.frame_of ev = None)
          (Spec.new_events w (authenticateWebSocket env now r request w).2)).
Proof.
  unfold authenticateWebSocket, findFirst, try_catch, bind, ret, throw, gets, modify.
  repeat (cbv beta iota; auth_step);
    try (left; eexists; reflexivity);
    right; cbn [fst snd]; (split; [discriminate|]);
    new_events_simpl; repeat constructor.
Qed.

Lemma updates_frames (env : AuthEnv) (authTime : Z) (clock : Clock) (r : Ref)
    (request : Request) (w : World) (ev : Event) (p : Payload) :
  ev ∈ Spec.new_events w (updates env authTime clock r request w).2 →
  Spec.frame_of ev = Some p →
  Spec.stamped "CONNECTED" (now_iso clock) p.
Proof.
  unfold updates. unfold bind at 1.
  destruct (authenticate_shape env authTime r request w) as [[u ->]|[Hne Hev]].
  - cbn [negb]. cbv iota.
    unfold bind, gets, ret, addConnection, socket_on_message, socket_on_close, modify.
    deref_simpl. cbn [user set_user].
    repeat (cbv beta iota; handler_step);
      cbn [fst snd]; new_events_simpl; intros Hin Hf; in_list Hin;
      injection Hf as <-; eexists; split_and!; reflexivity.
  - destruct (authenticateWebSocket env authTime r request w) as [[[]|e] w'];
      cbn [fst snd negb] in *; try done; unfold ret; cbn [snd];
      intros Hin Hf; rewrite Forall_forall in Hev;
      by rewrite (Hev ev Hin) in Hf.
Qed.

(** C4, as stated, fails: the frame a task event is sent as has the two
    fields [type] and [task] and no [timestamp]. *)
Lemma task_frame_has_no_timestamp :
  let w := Samples.three_and_two in
  let task := JObj [("id", JStr "t1"); ("title", JStr "Write the report")] in
  let fields := [("type", JStr "TASK_CREATED"); ("task", task)] in
  EvSend 1 (Json (JObj fields)) ∈ Spec.new_events w (createTask_notify "A" task w).2 ∧
  assoc "timestamp" fields = None ∧
  ∀ type iso, ¬ Spec.stamped type iso (Json (JObj fields)).
Proof.
  split_and!.
  - vm_compute. left.
  - reflexivity.
  - intros type iso (fields & [= <-] & _ & Hts). discriminate.
Qed.

(** C4, amended.  The frames the route writes, CONNECTED at admission and
    PONG, SUBSCRIBED, UNSUBSCRIBED or ERROR in answer to a frame, are objects
    with a [timestamp], the ISO string of the clock read when the handler
    runs.  The frames of task events are the object the controller built: its
    [type] with [task] (TASK_CREATED, TASK_UPDATED) or [taskId]
    (TASK_DELETED), and nothing else. *)
Theorem route_frames_are_stamped :
  (∀ env authTime clock r request w ev p,
     ev ∈ Spec.new_events w (updates env authTime clock r request w).2 →
     Spec.frame_of ev = Some p →
     Spec.stamped "CONNECTED" (now_iso clock) p) ∧
  (∀ clock r userId message w ev p,
     ev ∈ Spec.new_events w (onMessage clock r userId message w).2 →
     Spec.frame_of ev = Some p →
     ∃ type, type ∈ ["PONG"; "SUBSCRIBED"; "UNSUBSCRIBED"; "ERROR"] ∧
             Spec.stamped type (now_iso clock) p) ∧
  (∀ userId task id w ev p,
     Spec.frame_of ev = Some p →
     (ev ∈ Spec.new_events w (createTask_notify userId task w).2 →
      p = Json (JObj [("type", JStr "TASK_CREATED"); ("task", task)])) ∧
     (ev ∈ Spec.new_events w (updateTask_notify userId task w).2 →
      p = Json (JObj [("type", JStr "TASK_UPDATED"); ("task", task)])) ∧
     (ev ∈ Spec.new_events w (deleteTask_notify userId id w).2 →
      p = Json (JObj [("type", JStr "TASK_DELETED"); ("taskId", JStr id)]))).
Proof.
  split_and!.
  - apply updates_frames.
  - apply onMessage_frames.
  - intros userId task id w ev p Hf.
    unfold createTask_notify, updateTask_notify, deleteTask_notify.
    rewrite !broadcastFiltered_run.
    split_and!; intros Hin; apply dispatch_events_in in Hin as (e & _ & [-> | ->]);
      by injection Hf as <-.
Qed.

Lemma route_frames_are_stamped_witness :
  Spec.stamped "CONNECTED" (now_iso Samples.clock)
    (CONNECTED "A" (now_iso Samples.clock)) ∧
  (∃ type, type ∈ ["PONG"; "SUBSCRIBED"; "UNSUBSCRIBED"; "ERROR"] ∧
           Spec.stamped type (now_iso Samples.clock)
             (ERROR "Unknown message type" (now_iso Samples.clock))) ∧
  serialize (TASK_DELETED "t1") =
    Json (JObj [("type", JStr "TASK_DELETED"); ("taskId", JStr "t1")]).
Proof.
  split; [|split].
  3: {
    apply (proj2 (proj2 (proj2 (proj2 route_frames_are_stamped) "A" JNull "t1"
                           Samples.three_and_two
                           (EvSend 1 (serialize (TASK_DELETED "t1")))
                           (serialize (TASK_DELETED "t1")) eq_refl))).
    vm_compute. left. }
  - apply (proj1 route_frames_are_stamped Samples.env 50%Z Samples.clock 1
             (Samples.with_token "t-alice") Samples.two_arrivals
             (EvSend 1 (CONNECTED "A" (now_iso Samples.clock)))).
    + vm_compute. left.
    + reflexivity.
  - apply (proj1 (proj2 route_frames_are_stamped) Samples.clock 1 "A"
             (Parsed (JObj [("type", JStr "BOGUS")])) Samples.three_and_two
             (EvSend 1 (ERROR "Unknown message type" (now_iso Samples.clock)))).
    + vm_compute. left.
    + reflexivity.
Defined.

(** The scenarios of the protocol: admission, then a ping, an unknown type,
    a frame that is not JSON, and a [type] that cannot be printed in the log
    line. *)
Example scenario_connected :
  Spec.new_events Samples.two_arrivals
    (updates Samples.env 50 Samples.clock 1 (Samples.with_token "t-alice")
       Samples.two_arrivals).2 =
  [EvSend 1 (CONNECTED "A" "2023-11-14T22:13:20.000Z")].
Proof. vm_compute. reflexivity. Qed.

Example scenario_frames :
  let w := (updates Samples.env 50 Samples.clock 1 (Samples.with_token "t-alice")
              Samples.two_arrivals).2 in
  let iso := "2023-11-14T22:13:20.000Z" in
  let reply frame := Spec.new_events w (Transport.message Samples.clock 1 frame w).2 in
  reply (Parsed (JObj [("type", JStr "PING")])) = [EvSend 1 (PONG iso)] ∧
  reply (Parsed (JObj [("type", JStr "SUBSCRIBE_TASKS")])) =
    [EvSend 1 (SUBSCRIBED iso)] ∧
  reply (Parsed (JObj [("type", JStr "BOGUS")])) =
    [EvSend 1 (ERROR "Unknown message type" iso)] ∧
  reply (Parsed (JStr "PING")) = [EvSend 1 (ERROR "Unknown message type" iso)] ∧
  reply Unparseable = [EvSend 1 (ERROR "Invalid message format" iso)] ∧
  reply (Parsed JNull) = [EvSend 1 (ERROR "Invalid message format" iso)] ∧
  reply (Parsed (JObj [("type", JObj [("toString", JNum 1)])])) =
    [EvSend 1 (ERROR "Invalid message format" iso)].
Proof. vm_compute. done. Qed.

(** ** C10: the reconnect policy of the client *)
Import WebSocketClient.

Lemma handleClose_step (code : Z) (reason : string) (st : State) :
  timers (handleClose code reason st) =
    timers st ++
    (if (code =? 1008)%Z then []
     else if Nat.leb 10 (reconnectAttempts st) then []
     else [Qmin (1000 * (3 # 2) ^ Z.of_nat (S (reconnectAttempts st))) 30000]) ∧
  reconnectAttempts (handleClose code reason st) =
    (if (code =? 1008)%Z then reconnectAttempts st
     else if Nat.leb 10 (reconnectAttempts st) then reconnectAttempts st
     else S (reconnectAttempts st)).
Proof.
  unfold handleClose, scheduleReconnect, maxReconnectAttempts, timers.
  cbn [reconnectAttempts setConnectionError setIsConnecting setIsConnected].
  destruct (code =? 1008)%Z; [|destruct (Nat.leb 10 (reconnectAttempts st))];
    cbn; rewrite !omap_app; cbn; by rewrite ?app_nil_r.
Qed.

(** A connection that opens puts the counter back to zero and sets no
    timer. *)
Lemma handleOpen_resets (iso : string) (st : State) :
  reconnectAttempts (handleOpen iso st) = 0 ∧
  timers (handleOpen iso st) = timers st.
Proof.
  unfold handleOpen, timers. cbn. rewrite omap_app. cbn.
  by rewrite app_nil_r.
Qed.

(** C10.  Over any run of close events, from any state of the client: a
    close with code 1008 sets no timer; every other close sets one timer as
    long as the attempt counter is below 10, and none from then on; the timer
    of attempt number [n] (the counter after its increment) has the delay
    [min (1000 * 1.5 ^ n) 30000] milliseconds. *)
Theorem reconnect_policy (events : list (Z * string)) : ∀ st : State,
  timers (closes events st) =
  timers st ++
  map (fun attempt => Qmin (1000 * (3 # 2) ^ Z.of_nat attempt) 30000)
      (seq (S (reconnectAttempts st))
           (Nat.min (10 - reconnectAttempts st)
                    (length (List.filter (fun e => negb (e.1 =? 1008)%Z) events)))).
Proof.
  unfold closes.
  induction events as [|[code reason] events IH]; intros st.
  - cbn [fold_left List.filter length]. rewrite Nat.min_0_r.
    cbn [seq map]. by rewrite app_nil_r.
  - cbn [fold_left List.filter fst snd]. rewrite IH.
    destruct (handleClose_step code reason st) as [-> ->].
    destruct (code =? 1008)%Z; cbn [negb].
    + by rewrite app_nil_r.
    + cbn [length].
      destruct (Nat.leb_spec 10 (reconnectAttempts st)) as [Hge|Hlt].
      * rewrite app_nil_r.
        replace (10 - reconnectAttempts st) with 0 by lia. done.
      * rewrite <- app_assoc. f_equal.
        replace (10 - reconnectAttempts st) with (S (10 - S (reconnectAttempts st)))
          by lia.
        done.
Qed.

(** A client that just connected meets a refusal (1008) and then twelve
    other closes: ten timers, with these delays in milliseconds. *)
Example reconnect_delays :
  let st := handleOpen "2023-11-14T22:13:20.000Z"
              (mkState false true None 7 None []) in
  let events := (1008%Z, "Invalid or expired session") ::
                repeat (1006%Z, "") 12 in
  map Qred (timers (closes events st)) =
  [1500; 2250; 3375; 10125 # 2; 30375 # 4; 91125 # 8; 273375 # 16;
   820125 # 32; 30000; 30000]%Q.
Proof. vm_compute. reflexivity. Qed.

(** For the counters the client reaches, [1000 * 1.5 ^ n] is an integer
    below [2 ^ 53] over [2 ^ n]: a binary64 number, on which the arithmetic
    of the source does not round. *)
Lemma delay_is_exact (n : nat) :
  (n <= 10)%nat →
  (1000 * (3 # 2) ^ Z.of_nat n ==
   inject_Z (1000 * 3 ^ Z.of_nat n) / inject_Z (2 ^ Z.of_nat n))%Q ∧
  (1000 * 3 ^ Z.of_nat n < 2 ^ 53)%Z.
Proof.
  intros Hn. do 11 (destruct n as [|n]; [by vm_compute|]). lia.
Qed.
